(** * Hassanscraft: the voxel demo of [script.js], embedded and verified

    The program is one JavaScript file driving three.js: it builds a flat
    16 x 8 x 16 terrain of textured cubes, and moves a first-person camera
    with keyboard, mouse and gravity.

    Every number of the program is a JavaScript Number.  The embedding is
    written once over an interface [Number] of the arithmetic the program
    uses, and read at two instances:
    - [Float64]: IEEE 754 binary64 (Rocq's primitive floats), which is what
      the program computes with, bit for bit;
    - [Real]: exact real arithmetic, an idealisation, kept beside the
      binary64 statements where it shows what rounding changes.
    Loop counters and block ids are integers and are kept in [Z]; they are
    converted with [of_Z] where the program does arithmetic on them. *)

From Stdlib Require Import ZArith QArith Reals Floats Lra Lia String Bool List.
Import ListNotations.

Local Close Scope Q_scope.
Local Close Scope R_scope.
Local Open Scope Z_scope.

(** * Part I: the program *)

(** ** JavaScript numbers *)

Class Number (num : Type) : Type := {
  of_Z : Z -> num;                 (* an integer literal, Number(n) *)
  add : num -> num -> num;
  sub : num -> num -> num;
  mul : num -> num -> num;
  div : num -> num -> num;
  opp : num -> num;                (* unary minus *)
  Math_sqrt : num -> num;
  ltb : num -> num -> bool;        (* a < b *)
  truthy : num -> bool;            (* ToBoolean: false on 0, -0 and NaN *)
  Math_max : num -> num -> num;
  Math_min : num -> num -> num;
  Math_PI : num;
  Math_fround : num -> num         (* what a Float32Array keeps of a store *)
}.

Declare Scope num_scope.
Delimit Scope num_scope with num.
Infix "+" := add : num_scope.
Infix "-" := sub : num_scope.
Infix "*" := mul : num_scope.
Infix "/" := div : num_scope.
Notation "- x" := (opp x) : num_scope.
Infix "<?" := ltb : num_scope.

(** A decimal literal [n/d] of the source text, such as [9.8] or [0.002]:
    the Number nearest to the quotient. *)
Definition lit {num} `{Number num} (q : Q) : num :=
  (of_Z (Qnum q) / of_Z (Z.pos (Qden q)))%num.
Arguments lit {num _} q%_Q.

(** [a || b] on numbers. *)
Definition or_else {num} `{Number num} (a b : num) : num :=
  if truthy a then a else b.

(** [Number(b)] of a boolean. *)
Definition Number_of_bool {num} `{Number num} (b : bool) : num :=
  if b then of_Z 1 else of_Z 0.

(** *** Binary64 *)

Module Float64.

Definition of_Z (z : Z) : float :=
  SF2Prim (binary_normalize prec emax z 0 false).

Definition truthy (x : float) : bool :=
  negb (PrimFloat.eqb x PrimFloat.zero || PrimFloat.is_nan x).

(** [Math.max]: NaN if an argument is NaN, and [+0] above [-0]. *)
Definition Math_max (a b : float) : float :=
  if PrimFloat.is_nan a || PrimFloat.is_nan b then PrimFloat.nan
  else if PrimFloat.ltb a b then b
  else if PrimFloat.ltb b a then a
  else if PrimFloat.get_sign a then b else a.

(** [Math.min]: NaN if an argument is NaN, and [-0] below [+0]. *)
Definition Math_min (a b : float) : float :=
  if PrimFloat.is_nan a || PrimFloat.is_nan b then PrimFloat.nan
  else if PrimFloat.ltb a b then a
  else if PrimFloat.ltb b a then b
  else if PrimFloat.get_sign a then a else b.

(** Rounding to binary32 (24 bits of precision, exponents up to 128),
    the value read back as a binary64. *)
Definition Math_fround (x : float) : float :=
  match Prim2SF x with
  | S754_finite s m e =>
      SF2Prim (binary_normalize 24 128 (if s then Z.neg m else Z.pos m) e s)
  | _ => x
  end.

Definition Math_PI : float := 0x1.921fb54442d18p+1%float.

End Float64.

#[export] Instance Float64_Number : Number float := {|
  of_Z := Float64.of_Z;
  add := PrimFloat.add;
  sub := PrimFloat.sub;
  mul := PrimFloat.mul;
  div := PrimFloat.div;
  opp := PrimFloat.opp;
  Math_sqrt := PrimFloat.sqrt;
  ltb := PrimFloat.ltb;
  truthy := Float64.truthy;
  Math_max := Float64.Math_max;
  Math_min := Float64.Math_min;
  Math_PI := Float64.Math_PI;
  Math_fround := Float64.Math_fround
|}.

(** *** Exact reals

    An idealisation, and not what the program computes with: no rounding,
    no overflow, no NaN and no infinity, and [Math_fround] is the
    identity.  What holds at this instance alone is a fact of the
    formulas, not of the program; every property of the program below is
    stated and proved at the binary64 instance (or for any arithmetic). *)

Module Real.

Definition ltb (a b : R) : bool := if Rlt_dec a b then true else false.

Definition truthy (a : R) : bool := if Req_dec_T a 0%R then false else true.

End Real.

#[export] Instance Real_Number : Number R := {|
  of_Z := IZR;
  add := Rplus;
  sub := Rminus;
  mul := Rmult;
  div := Rdiv;
  opp := Ropp;
  Math_sqrt := R_sqrt.sqrt;
  ltb := Real.ltb;
  truthy := Real.truthy;
  Math_max := Rmax;
  Math_min := Rmin;
  Math_PI := PI;
  Math_fround := fun x => x
|}.

(** ** Outcomes of JavaScript code that can throw *)

Inductive Completion (A : Type) : Type :=
| Return (a : A)
| Throw (e : string).
Arguments Return {A} a.
Arguments Throw {A} e.

Definition bind {A B} (c : Completion A) (k : A -> Completion B) : Completion B :=
  match c with
  | Return a => k a
  | Throw e => Throw e
  end.

Declare Scope js_scope.
Delimit Scope js_scope with js.
Notation "x <- c ;; k" := (bind c (fun x => k))
  (at level 61, c at next level, right associativity) : js_scope.
Local Open Scope js_scope.

Definition throws {A} (c : Completion A) : Prop := exists e, c = Throw e.

(** [arr[i]] followed by a property read: reading a property of the
    [undefined] that a missing element yields is a TypeError. *)
Definition index {A} (arr : list A) (i : nat) : Completion A :=
  match nth_error arr i with
  | Some a => Return a
  | None => Throw "TypeError: cannot read properties of undefined"
  end.

(** ** Counting loops

    [for (let i = lo; i < hi; i += step) body]: no body of the program
    assigns its counter, so the loop runs its body on [lo], [lo + step],
    ... below [hi], threading the state and stopping at the first throw. *)

Definition counter_values (lo hi step : Z) : list Z :=
  map (fun k => lo + Z.of_nat k * step)
      (seq 0 (Z.to_nat ((hi - lo + step - 1) / step))).

Fixpoint run_body {S} (body : Z -> S -> Completion S) (counters : list Z) (s : S)
  : Completion S :=
  match counters with
  | [] => Return s
  | i :: rest => s' <- body i s ;; run_body body rest s'
  end.

Definition for_loop {S} (lo hi step : Z) (body : Z -> S -> Completion S) (s : S)
  : Completion S :=
  run_body body (counter_values lo hi step) s.

(** The same loop taken one step at a time: the test, the body, the
    increment.  [fuel] bounds the number of tests; [None] is a loop that
    has not ended within it. *)
Fixpoint for_steps {State} (fuel : nat) (i hi step : Z)
         (body : Z -> State -> Completion State) (s : State)
  : option (Completion State) :=
  match fuel with
  | O => None
  | Datatypes.S fuel' =>
      if i <? hi then
        match body i s with
        | Return s' => for_steps fuel' (i + step) hi step body s'
        | Throw e => Some (Throw e)
        end
      else Some (Return s)
  end.

Section Engine.

Context {num : Type} {N : Number num}.
Local Open Scope num_scope.

(** ** three.js values *)

Record Vector2 : Type := mkVector2 { uv_x : num; uv_y : num }.
Record Vector3 : Type := mkVector3 { vec_x : num; vec_y : num; vec_z : num }.

(** The [uv] attribute of a geometry: one pair per vertex, kept in a
    Float32Array. *)
Definition UVBuffer : Type := list Vector2.

Record Mesh : Type := mkMesh { geometry_uv : UVBuffer; mesh_position : Vector3 }.

(** [new THREE.BoxGeometry(w, h, d)]: 6 faces of 4 vertices; each face
    starts with the full texture. *)
Definition box_face_uv : UVBuffer :=
  [ mkVector2 (of_Z 0) (of_Z 1); mkVector2 (of_Z 1) (of_Z 1);
    mkVector2 (of_Z 0) (of_Z 0); mkVector2 (of_Z 1) (of_Z 0) ].

Definition BoxGeometry (w h d : Z) : UVBuffer :=
  concat (repeat box_face_uv 6).

(** [uv.count] *)
Definition count (buf : UVBuffer) : Z := Z.of_nat (length buf).

Fixpoint store {A} (i : nat) (a : A) (l : list A) : list A :=
  match l, i with
  | [], _ => []
  | _ :: t, O => a :: t
  | h :: t, S j => h :: store j a t
  end.

(** [uv.setXY(index, x, y)]: a store into the typed array, which narrows
    the numbers to binary32 and ignores an index outside the array. *)
Definition setXY (idx : Z) (x y : num) (buf : UVBuffer) : UVBuffer :=
  if (idx <? 0)%Z then buf
  else store (Z.to_nat idx) (mkVector2 (Math_fround x) (Math_fround y)) buf.

(** ** Blocks and the texture atlas (script.js 51-84) *)

Definition CHUNK_SIZE : Z := 16.
Definition BLOCK_SIZE : Z := 1.

(** The object [BLOCK_TYPES]: [None] for a key it does not have. *)
Definition BLOCK_TYPES (id : Z) : option (option string) :=
  if (id =? 0)%Z then Some None
  else if (id =? 1)%Z then Some (Some "grass"%string)
  else if (id =? 2)%Z then Some (Some "dirt"%string)
  else if (id =? 3)%Z then Some (Some "stone"%string)
  else None.

Definition atlasBlockSize : num := of_Z 1 / of_Z 16.

Definition getUVForBlock (id : Z) : Completion (list Vector2) :=
  let x := (of_Z id - of_Z 1) * atlasBlockSize in
  Return
    [ mkVector2 x (of_Z 1 - atlasBlockSize);
      mkVector2 (x + atlasBlockSize) (of_Z 1 - atlasBlockSize);
      mkVector2 (x + atlasBlockSize) (of_Z 1);
      mkVector2 x (of_Z 1) ].

(** ** One block's mesh (script.js 87-112)

    Of the mesh the embedding keeps the numbers: the [uv] attribute of its
    geometry and its position.  The material is the one atlas texture for
    every block, and [needsUpdate] is a flag for the renderer. *)

Definition createBlockMesh (blockId x y z : Z) : Completion (option Mesh) :=
  if (blockId =? 0)%Z then Return None
  else
    let geometry := BoxGeometry BLOCK_SIZE BLOCK_SIZE BLOCK_SIZE in
    uv <- getUVForBlock blockId ;;
    geometry <-
      for_loop 0 (count geometry) 4
        (fun i geometry =>
           uv0 <- index uv 0 ;;
           let geometry := setXY (i + 0) (uv_x uv0) (uv_y uv0) geometry in
           uv1 <- index uv 1 ;;
           let geometry := setXY (i + 1) (uv_x uv1) (uv_y uv1) geometry in
           uv2 <- index uv 2 ;;
           let geometry := setXY (i + 2) (uv_x uv2) (uv_y uv2) geometry in
           uv3 <- index uv 3 ;;
           let geometry := setXY (i + 3) (uv_x uv3) (uv_y uv3) geometry in
           Return geometry)
        geometry ;;
    Return
      (Some
         {| geometry_uv := geometry;
            mesh_position :=
              mkVector3 (of_Z x + lit 0.5) (of_Z y + lit 0.5) (of_Z z + lit 0.5) |}).

(** ** The world (script.js 114-131) *)

Definition Scene : Type := list Mesh.

(** [scene.add(object)]: appended to the children; three.js refuses
    (and only logs) what is not an Object3D. *)
Definition scene_add (object : option Mesh) (scene : Scene) : Scene :=
  match object with
  | Some mesh => scene ++ [mesh]
  | None => scene
  end.

(** Lines 121-124: the block id of layer [y]. *)
Definition blockIdAt (y : Z) : Z :=
  let blockId := 0%Z in
  if (y =? 0)%Z then 1%Z
  else if (y <? 4)%Z then 2%Z
  else if (y <? 8)%Z then 3%Z
  else blockId.

Definition world_loop (scene : Scene) : Completion Scene :=
  for_loop 0 CHUNK_SIZE 1
    (fun x scene =>
       for_loop 0 CHUNK_SIZE 1
         (fun z scene =>
            for_loop 0 8 1
              (fun y scene =>
                 let blockId := blockIdAt y in
                 if (blockId >? 0)%Z then
                   mesh <- createBlockMesh blockId x y z ;;
                   Return (scene_add mesh scene)
                 else Return scene)
              scene)
         scene)
    scene.

(** ** The controls *)

Definition set_x (a : num) (v : Vector3) : Vector3 := mkVector3 a (vec_y v) (vec_z v).
Definition set_y (a : num) (v : Vector3) : Vector3 := mkVector3 (vec_x v) a (vec_z v).
Definition set_z (a : num) (v : Vector3) : Vector3 := mkVector3 (vec_x v) (vec_y v) a.

(** *** Vector3 of three.js

    [length() = Math.sqrt(x*x + y*y + z*z)],
    [multiplyScalar(s)] scales the three components,
    [divideScalar(s) = multiplyScalar(1 / s)] and
    [normalize() = divideScalar(length() || 1)]. *)

Definition length3 (v : Vector3) : num :=
  Math_sqrt (vec_x v * vec_x v + vec_y v * vec_y v + vec_z v * vec_z v).

Definition multiplyScalar (s : num) (v : Vector3) : Vector3 :=
  mkVector3 (vec_x v * s) (vec_y v * s) (vec_z v * s).

Definition divideScalar (s : num) (v : Vector3) : Vector3 :=
  multiplyScalar (of_Z 1 / s) v.

(** The number [normalize] divides by. *)
Definition normalize_divisor (v : Vector3) : num :=
  or_else (length3 v) (of_Z 1).

Definition normalize (v : Vector3) : Vector3 :=
  divideScalar (normalize_divisor v) v.

(** *** The globals of the controls (script.js 14-23) *)

Record Game : Type := mkGame {
  camera_position : Vector3;
  camera_rotation : Vector3;
  moveForward : bool;
  moveBackward : bool;
  moveLeft : bool;
  moveRight : bool;
  canJump : bool;
  velocity : Vector3;
  direction : Vector3;
  mouse_listener : bool        (* [onMouseMove] is registered on the document *)
}.

Definition zero3 : Vector3 := mkVector3 (of_Z 0) (of_Z 0) (of_Z 0).

Definition initial : Game := {|
  camera_position := mkVector3 (of_Z 8) (of_Z 10) (of_Z 8);
  camera_rotation := zero3;
  moveForward := false;
  moveBackward := false;
  moveLeft := false;
  moveRight := false;
  canJump := false;
  velocity := zero3;
  direction := zero3;
  mouse_listener := false
|}.

Definition set_camera_position (v : Vector3) (g : Game) : Game :=
  mkGame v (camera_rotation g) (moveForward g) (moveBackward g) (moveLeft g)
         (moveRight g) (canJump g) (velocity g) (direction g) (mouse_listener g).
Definition set_camera_rotation (v : Vector3) (g : Game) : Game :=
  mkGame (camera_position g) v (moveForward g) (moveBackward g) (moveLeft g)
         (moveRight g) (canJump g) (velocity g) (direction g) (mouse_listener g).
Definition set_moveForward (b : bool) (g : Game) : Game :=
  mkGame (camera_position g) (camera_rotation g) b (moveBackward g) (moveLeft g)
         (moveRight g) (canJump g) (velocity g) (direction g) (mouse_listener g).
Definition set_moveBackward (b : bool) (g : Game) : Game :=
  mkGame (camera_position g) (camera_rotation g) (moveForward g) b (moveLeft g)
         (moveRight g) (canJump g) (velocity g) (direction g) (mouse_listener g).
Definition set_moveLeft (b : bool) (g : Game) : Game :=
  mkGame (camera_position g) (camera_rotation g) (moveForward g) (moveBackward g) b
         (moveRight g) (canJump g) (velocity g) (direction g) (mouse_listener g).
Definition set_moveRight (b : bool) (g : Game) : Game :=
  mkGame (camera_position g) (camera_rotation g) (moveForward g) (moveBackward g)
         (moveLeft g) b (canJump g) (velocity g) (direction g) (mouse_listener g).
Definition set_canJump (b : bool) (g : Game) : Game :=
  mkGame (camera_position g) (camera_rotation g) (moveForward g) (moveBackward g)
         (moveLeft g) (moveRight g) b (velocity g) (direction g) (mouse_listener g).
Definition set_velocity (v : Vector3) (g : Game) : Game :=
  mkGame (camera_position g) (camera_rotation g) (moveForward g) (moveBackward g)
         (moveLeft g) (moveRight g) (canJump g) v (direction g) (mouse_listener g).
Definition set_direction (v : Vector3) (g : Game) : Game :=
  mkGame (camera_position g) (camera_rotation g) (moveForward g) (moveBackward g)
         (moveLeft g) (moveRight g) (canJump g) (velocity g) v (mouse_listener g).
Definition set_mouse_listener (b : bool) (g : Game) : Game :=
  mkGame (camera_position g) (camera_rotation g) (moveForward g) (moveBackward g)
         (moveLeft g) (moveRight g) (canJump g) (velocity g) (direction g) b.

(** *** Pointer lock and mouse look (script.js 25-49) *)

(** [locked]: [document.pointerLockElement === document.body].  Adding a
    listener that is registered already changes nothing. *)
Definition onPointerLockChange (locked : bool) (g : Game) : Game :=
  if locked then set_mouse_listener true g else set_mouse_listener false g.

Definition onMouseMove (event_movementX event_movementY : num) (g : Game) : Game :=
  let movementX := or_else event_movementX (of_Z 0) in
  let movementY := or_else event_movementY (of_Z 0) in
  let g := set_camera_rotation
             (set_y (vec_y (camera_rotation g) - movementX * lit 0.002) (camera_rotation g)) g in
  let g := set_camera_rotation
             (set_x (vec_x (camera_rotation g) - movementY * lit 0.002) (camera_rotation g)) g in
  let g := set_camera_rotation
             (set_x (Math_max (- Math_PI / of_Z 2)
                              (Math_min (Math_PI / of_Z 2) (vec_x (camera_rotation g))))
                    (camera_rotation g)) g in
  g.

(** *** Keyboard (script.js 134-154) *)

Definition keydown (code : string) (g : Game) : Game :=
  if String.eqb code "KeyW" then set_moveForward true g
  else if String.eqb code "KeyS" then set_moveBackward true g
  else if String.eqb code "KeyA" then set_moveLeft true g
  else if String.eqb code "KeyD" then set_moveRight true g
  else if String.eqb code "Space" then
    let g := if canJump g
             then set_velocity (set_y (vec_y (velocity g) + of_Z 8) (velocity g)) g
             else g in
    let g := set_canJump false g in
    g
  else g.

Definition keyup (code : string) (g : Game) : Game :=
  if String.eqb code "KeyW" then set_moveForward false g
  else if String.eqb code "KeyS" then set_moveBackward false g
  else if String.eqb code "KeyA" then set_moveLeft false g
  else if String.eqb code "KeyD" then set_moveRight false g
  else g.

(** *** One frame (script.js 174-203) *)

(** Lines 181-194: gravity, damping, direction, acceleration, position. *)
Definition animate_move (delta : num) (g : Game) : Game :=
  let g := set_velocity (set_y (vec_y (velocity g) - lit 9.8 * delta) (velocity g)) g in
  let g := set_velocity
             (set_x (vec_x (velocity g) - vec_x (velocity g) * of_Z 10 * delta) (velocity g)) g in
  let g := set_velocity
             (set_z (vec_z (velocity g) - vec_z (velocity g) * of_Z 10 * delta) (velocity g)) g in
  let g := set_direction
             (set_z (Number_of_bool (moveForward g) - Number_of_bool (moveBackward g))
                    (direction g)) g in
  let g := set_direction
             (set_x (Number_of_bool (moveRight g) - Number_of_bool (moveLeft g))
                    (direction g)) g in
  let g := set_direction (normalize (direction g)) g in
  let g := if moveForward g || moveBackward g
           then set_velocity
                  (set_z (vec_z (velocity g) - vec_z (direction g) * of_Z 20 * delta)
                         (velocity g)) g
           else g in
  let g := if moveLeft g || moveRight g
           then set_velocity
                  (set_x (vec_x (velocity g) - vec_x (direction g) * of_Z 20 * delta)
                         (velocity g)) g
           else g in
  let g := set_camera_position
             (set_x (vec_x (camera_position g) + vec_x (velocity g) * delta)
                    (camera_position g)) g in
  let g := set_camera_position
             (set_y (vec_y (camera_position g) + vec_y (velocity g) * delta)
                    (camera_position g)) g in
  let g := set_camera_position
             (set_z (vec_z (camera_position g) + vec_z (velocity g) * delta)
                    (camera_position g)) g in
  g.

(** Lines 196-200: the ground. *)
Definition animate_ground (g : Game) : Game :=
  if vec_y (camera_position g) <? of_Z 2 then
    let g := set_velocity (set_y (of_Z 0) (velocity g)) g in
    let g := set_camera_position (set_y (of_Z 2) (camera_position g)) g in
    let g := set_canJump true g in
    g
  else g.

(** [delta] is what [clock.getDelta()] returned for this frame. *)
Definition animate (delta : num) (g : Game) : Game :=
  animate_ground (animate_move delta g).

(** *** What happens to the page *)

Inductive Event : Type :=
| Frame (delta : num)
| KeyDown (code : string)
| KeyUp (code : string)
| PointerLockChange (locked : bool)
| MouseMove (movementX movementY : num).

Definition handle (g : Game) (e : Event) : Game :=
  match e with
  | Frame delta => animate delta g
  | KeyDown code => keydown code g
  | KeyUp code => keyup code g
  | PointerLockChange locked => onPointerLockChange locked g
  | MouseMove movementX movementY =>
      if mouse_listener g then onMouseMove movementX movementY g else g
  end.

(** The state a sequence of events leaves.  The script's own first call
    of [animate] (line 205) is the event [Frame] of the clock's first
    delta; each later frame is one that [requestAnimationFrame] runs. *)
Definition run (events : list Event) (g : Game) : Game :=
  fold_left handle events g.

End Engine.

Arguments Vector2 : clear implicits.
Arguments Vector3 : clear implicits.
Arguments UVBuffer : clear implicits.
Arguments Mesh : clear implicits.
Arguments Scene : clear implicits.
Arguments Game : clear implicits.
Arguments Event : clear implicits.
Arguments animate_move : simpl never.
Arguments normalize : simpl never.

(** ** The hotbar (script.js 63-64 and 156-163) *)

(** An element of the page, as far as the click handler reads and writes
    it: its class list and its [data-block] attribute ([None] where the
    element has none, which JavaScript reads as [undefined]).  A class
    list is a set of tokens kept in order: [remove] takes a token out,
    [add] puts it at the end unless it is there already. *)
Record Element : Type := mkElement {
  classList : list string;
  dataset_block : option string
}.

Definition contains (token : string) (classes : list string) : bool :=
  existsb (String.eqb token) classes.

Definition classList_remove (token : string) (classes : list string) : list string :=
  filter (fun t => negb (String.eqb token t)) classes.

Definition classList_add (token : string) (classes : list string) : list string :=
  if contains token classes then classes else classes ++ [token].

Definition set_classList (classes : list string) (el : Element) : Element :=
  mkElement classes (dataset_block el).

Section Hotbar.

Context {num : Type}.

(** [Number(v)] of an attribute value: of a string, or of [undefined]. *)
Variable Number_of_attribute : option string -> num.

(** The elements of the document, in document order, and the global
    [selectedBlock]. *)
Record Page : Type := mkPage {
  elements : list Element;
  selectedBlock : num
}.

(** The click listener of lines 157-163; [target] is the place of
    [e.target] in the document.  [querySelectorAll('.block')] is every
    element of the document with the class [block]. *)
Definition hotbar_click (target : nat) (page : Page) : Page :=
  match nth_error (elements page) target with
  | None => page
  | Some e_target =>
      if contains "block" (classList e_target) then
        let elements :=
          map (fun b => if contains "block" (classList b)
                        then set_classList (classList_remove "selected" (classList b)) b
                        else b)
              (elements page) in
        let elements :=
          match nth_error elements target with
          | Some e_target =>
              store target
                    (set_classList (classList_add "selected" (classList e_target)) e_target)
                    elements
          | None => elements
          end in
        mkPage elements (Number_of_attribute (dataset_block e_target))
      else page
  end.

End Hotbar.

Arguments Page : clear implicits.

(** * Part II: the vocabulary of the specification *)

(** ** The voxel grid of the specification *)

(** The bound of the [y] loop (line 120); the source does not name it. *)
Definition WORLD_HEIGHT : Z := 8.

(** Modelled from the spec: the VoxelWorld grid and its lookup [blockAt].
    The source keeps no grid: its array [world] stays empty, and a block
    id lives only in the generation loops, between lines 121 and 126.  The
    grid lists the voxels those loops visit, each with the id line 121-124
    gives it, in the order of the loops ([x], then [z], then [y]). *)
Definition Voxel : Type := (Z * Z * Z * Z)%type.

Definition voxel_id (v : Voxel) : Z := snd v.

Definition voxel_at (x y z : Z) (v : Voxel) : bool :=
  let '(vx, vy, vz, _) := v in ((vx =? x) && (vy =? y) && (vz =? z))%Z.

Definition generate : list Voxel :=
  flat_map
    (fun x =>
       flat_map
         (fun z => map (fun y => (x, y, z, blockIdAt y)) (counter_values 0 WORLD_HEIGHT 1))
         (counter_values 0 CHUNK_SIZE 1))
    (counter_values 0 CHUNK_SIZE 1).

(** Modelled from the spec: [blockAt] answers Air (id 0) for a voxel the
    grid does not hold (spec 4.2). *)
Definition blockAt (x y z : Z) : Z :=
  match find (voxel_at x y z) generate with
  | Some v => voxel_id v
  | None => 0
  end.

Definition in_extent (x y z : Z) : Prop :=
  0 <= x < CHUNK_SIZE /\ 0 <= y < WORLD_HEIGHT /\ 0 <= z < CHUNK_SIZE.

(** ** Meshes, formulas and angles, in any arithmetic *)

Section Vocabulary.

Context {num : Type} {N : Number num}.
Local Open Scope num_scope.

(** The quad of block [id], as [getUVForBlock] builds it. *)
Definition quad (id : Z) : list (Vector2 num) :=
  let x := (of_Z id - of_Z 1) * atlasBlockSize in
  [ mkVector2 x (of_Z 1 - atlasBlockSize);
    mkVector2 (x + atlasBlockSize) (of_Z 1 - atlasBlockSize);
    mkVector2 (x + atlasBlockSize) (of_Z 1);
    mkVector2 x (of_Z 1) ].

(** What the typed array keeps of a quad. *)
Definition stored (q : list (Vector2 num)) : list (Vector2 num) :=
  map (fun p => mkVector2 (Math_fround (uv_x p)) (Math_fround (uv_y p))) q.

Definition centre (x y z : Z) : Vector3 num :=
  mkVector3 (of_Z x + lit 0.5) (of_Z y + lit 0.5) (of_Z z + lit 0.5).

Definition cube (id x y z : Z) : Mesh num :=
  {| geometry_uv := List.concat (repeat (stored (quad id)) 6);
     mesh_position := centre x y z |}.

(** A mesh whose 24 UV vertices are 6 groups of 4, each holding the
    quad [q]. *)
Definition faces_hold (mesh : Mesh num) (q : list (Vector2 num)) : Prop :=
  List.length (geometry_uv mesh) = 24%nat /\
  forall face k, (face < 6)%nat -> (k < 4)%nat ->
    nth_error (geometry_uv mesh) (4 * face + k) = nth_error q k.

(** The cubes one visit of the innermost loop body adds. *)
Definition visit (x z y : Z) : list (Mesh num) :=
  if (blockIdAt y >? 0)%Z then [cube (blockIdAt y) x y z] else [].

Definition world_cubes : list (Mesh num) :=
  flat_map
    (fun x =>
       flat_map
         (fun z => flat_map (visit x z) (counter_values 0 8 1))
         (counter_values 0 CHUNK_SIZE 1))
    (counter_values 0 CHUNK_SIZE 1).

Definition solid (v : Voxel) : bool := (voxel_id v >? 0)%Z.

Definition cube_of (v : Voxel) : Mesh num :=
  let '(x, y, z, id) := v in cube id x y z.

(** *** The movement formulas (spec 4.4, steps 1 to 5) *)

(** Step 3: [(right - left, 0, forward - backward)], divided by its
    length when that is not zero. *)
Definition spec_direction (forward backward left right : bool) : Vector3 num :=
  let dir := mkVector3 (Number_of_bool right - Number_of_bool left) (of_Z 0)
                       (Number_of_bool forward - Number_of_bool backward) in
  let len := length3 dir in
  if truthy len
  then mkVector3 (vec_x dir / len) (vec_y dir / len) (vec_z dir / len)
  else dir.

(** Steps 1, 2 and 4 on the velocity. *)
Definition spec_velocity (dt : num) (g : Game num) : Vector3 num :=
  let v := velocity g in
  let dir := spec_direction (moveForward g) (moveBackward g) (moveLeft g) (moveRight g) in
  let vy := vec_y v - lit 9.8 * dt in
  let vx := vec_x v - vec_x v * of_Z 10 * dt in
  let vz := vec_z v - vec_z v * of_Z 10 * dt in
  let vz := if moveForward g || moveBackward g then vz - vec_z dir * of_Z 20 * dt else vz in
  let vx := if moveLeft g || moveRight g then vx - vec_x dir * of_Z 20 * dt else vx in
  mkVector3 vx vy vz.

(** Step 5 on the position. *)
Definition spec_position (dt : num) (g : Game num) : Vector3 num :=
  let p := camera_position g in
  let v := spec_velocity dt g in
  mkVector3 (vec_x p + vec_x v * dt) (vec_y p + vec_y v * dt) (vec_z p + vec_z v * dt).

(** The direction the program computes at lines 185-187: the global
    vector with its [x] and [z] set from the flags, normalised by
    three.js. *)
Definition frame_direction (g : Game num) : Vector3 num :=
  normalize
    (mkVector3 (Number_of_bool (moveRight g) - Number_of_bool (moveLeft g))
               (vec_y (direction g))
               (Number_of_bool (moveForward g) - Number_of_bool (moveBackward g))).

(** *** The camera's angles: [camera.rotation.x] and [camera.rotation.y] *)

Definition pitch (g : Game num) : num := vec_x (camera_rotation g).
Definition yaw (g : Game num) : num := vec_y (camera_rotation g).

(** *** Keys and pointer lock over a sequence of events *)

(** Whether the key [code] is down after [events], when it was [before]
    them: what its last [keydown] or [keyup] says. *)
Fixpoint held (code : string) (events : list (Event num)) (before : bool) : bool :=
  match events with
  | [] => before
  | KeyDown c :: rest => held code rest (if String.eqb c code then true else before)
  | KeyUp c :: rest => held code rest (if String.eqb c code then false else before)
  | _ :: rest => held code rest before
  end.

(** The event that registers the mouse listener. *)
Definition locks (e : Event num) : bool :=
  match e with
  | PointerLockChange true => true
  | _ => false
  end.

End Vocabulary.

(** ** Binary64 vocabulary *)

Local Open Scope float_scope.

(** [p.x === q.x && p.y === q.y && p.z === q.z] *)
Definition same_position (p q : Vector3 float) : bool :=
  PrimFloat.eqb (vec_x p) (vec_x q) && PrimFloat.eqb (vec_y p) (vec_y q)
  && PrimFloat.eqb (vec_z p) (vec_z q).

Definition cubes_at (p : Vector3 float) (scene : Scene float) : list (Mesh float) :=
  filter (fun m => same_position (mesh_position m) p) scene.

Definition block_centre (x y z : Z) : Vector3 float :=
  mkVector3 (Float64.of_Z x + 0.5) (Float64.of_Z y + 0.5) (Float64.of_Z z + 0.5).

(** The quad over the cell [(i-1)/16, i/16) of the top row. *)
Definition cell_quad64 (i : Z) : list (Vector2 float) :=
  [ mkVector2 (Float64.of_Z (i - 1) * 0.0625) 0.9375;
    mkVector2 (Float64.of_Z i * 0.0625) 0.9375;
    mkVector2 (Float64.of_Z i * 0.0625) 1;
    mkVector2 (Float64.of_Z (i - 1) * 0.0625) 1 ].

(** At rest at (8, 10, 8), the W key held. *)
Definition at_rest_forward : Game float := keydown "KeyW" initial.

(** The bounds of the pitch, [-Math.PI/2] and [Math.PI/2], and the test
    [lower <= p && p <= upper]. *)
Definition pitch_lower : float := - Float64.Math_PI / 2.
Definition pitch_upper : float := Float64.Math_PI / 2.

Definition pitch_in_range64 (p : float) : Prop :=
  (pitch_lower <=? p) = true /\ (p <=? pitch_upper) = true.

(** A zero or a finite number of the binary64 specification. *)
Definition is_bounded (x : spec_float) : Prop :=
  match x with
  | S754_zero _ | S754_finite _ _ _ => True
  | _ => False
  end.

(** [1 / Math.sqrt(2)], as binary64 computes it. *)
Definition diagonal64 : float := 0x1.6a09e667f3bccp-1.

(** One axis of the direction: 1 or -1 where exactly one of its two keys
    is held, 0 otherwise. *)
Definition axis64 (plus minus : bool) : float :=
  if xorb plus minus then (if plus then 1 else -1) else 0.

(** The nine directions: along an axis, or along a diagonal with both
    components scaled by [diagonal64]. *)
Definition direction64 (forward backward left right : bool) : Vector3 float :=
  let x := axis64 right left in
  let z := axis64 forward backward in
  if xorb right left && xorb forward backward
  then mkVector3 (x * diagonal64) 0 (z * diagonal64)
  else mkVector3 x 0 z.

(** Modelled from the spec: steps 1, 2 and 4 of the tick (spec 4.4) on
    the velocity, in binary64, each operation rounded as JavaScript
    rounds it; 9.8 is the binary64 number nearest to it, and the unit
    direction of step 3 is read from the table [direction64]. *)
Definition step_velocity64 (dt : float) (g : Game float) : Vector3 float :=
  let v := velocity g in
  let dir := direction64 (moveForward g) (moveBackward g) (moveLeft g) (moveRight g) in
  let vy := vec_y v - 0x1.399999999999ap+3 * dt in
  let vx := vec_x v - vec_x v * 10 * dt in
  let vz := vec_z v - vec_z v * 10 * dt in
  let vz := if moveForward g || moveBackward g then vz - vec_z dir * 20 * dt else vz in
  let vx := if moveLeft g || moveRight g then vx - vec_x dir * 20 * dt else vx in
  mkVector3 vx vy vz.

(** Modelled from the spec: step 5, the position moved by the new
    velocity. *)
Definition step_position64 (dt : float) (g : Game float) : Vector3 float :=
  let p := camera_position g in
  let v := step_velocity64 dt g in
  mkVector3 (vec_x p + vec_x v * dt) (vec_y p + vec_y v * dt) (vec_z p + vec_z v * dt).

(** The squared length of a horizontal vector. *)
Definition squared_length64 (d : Vector3 float) : float :=
  vec_x d * vec_x d + vec_z d * vec_z d.

(** What [clock.getDelta()] returns in seconds: zero, or a positive
    finite number. *)
Definition clock_delta (dt : float) : Prop :=
  dt = 0 \/ ((0 <? dt) = true /\ (dt <? infinity) = true).

(** A number of the binary64 specification on the side [s] of zero
    ([true]: negative), zero of either sign included. *)
Definition toward (s : bool) (x : spec_float) : Prop :=
  match x with
  | S754_zero _ => True
  | S754_infinity s' | S754_finite s' _ _ => s' = s
  | S754_nan => False
  end.

(** A texture coordinate within the atlas: [0 <= u <= 1 && 0 <= v <= 1]. *)
Definition in_texture64 (p : Vector2 float) : bool :=
  (0 <=? uv_x p) && (uv_x p <=? 1) && (0 <=? uv_y p) && (uv_y p <=? 1).

(** The quad [a] lies to the left of the quad [b]: no [u] of [a] is
    above a [u] of [b], and the first corner of [a] is left of the first
    corner of [b]. *)
Definition left_of64 (a b : list (Vector2 float)) : bool :=
  forallb (fun p => forallb (fun q => uv_x p <=? uv_x q) b) a
  && match a, b with
     | p :: _, q :: _ => uv_x p <? uv_x q
     | _, _ => false
     end.

Local Close Scope float_scope.

(** The ids from [-256] to [256]: the atlas has 16 x 16 = 256 cells. *)
Definition atlas_ids : list Z := map (fun k => Z.of_nat k - 256) (seq 0 513).

(** What is checked of each id, and of each pair of ids, of a list of
    ids with their quads. *)
Definition cells_checked (table : list (Z * list (Vector2 float))) : bool :=
  forallb (fun a =>
             Bool.eqb (forallb in_texture64 (snd a)) ((1 <=? fst a) && (fst a <=? 16))
             && forallb (fun b => if fst a <? fst b then left_of64 (snd a) (snd b) else true)
                        table)
          table.

(** The quads of those ids, as [getUVForBlock] builds them in binary64. *)
Definition atlas_table : list (Z * list (Vector2 float)) :=
  map (fun i => (i, quad i)) atlas_ids.

(** ** Real vocabulary *)

Local Open Scope R_scope.

Definition cellSize : R := 1 / 16.

(** The quad over the cell [(i-1)*cellSize, i*cellSize) of the top row. *)
Definition cell_quad (i : Z) : list (Vector2 R) :=
  [ mkVector2 (IZR (i - 1) * cellSize) (1 - cellSize);
    mkVector2 (IZR i * cellSize) (1 - cellSize);
    mkVector2 (IZR i * cellSize) 1;
    mkVector2 (IZR (i - 1) * cellSize) 1 ].

Definition pitch_in_range (g : Game R) : Prop := - PI / 2 <= pitch g <= PI / 2.

Local Close Scope R_scope.

(** * Part III: properties *)

(** ** Loops *)

Lemma counter_values_unit (hi : Z) (i : Z) :
  In i (counter_values 0 hi 1) <-> 0 <= i < hi.
Proof.
  unfold counter_values. rewrite in_map_iff. split.
  - intros [k [<- Hk]]. apply in_seq in Hk.
    replace ((hi - 0 + 1 - 1) / 1) with hi in Hk by (rewrite Z.div_1_r; lia). lia.
  - intros Hi. exists (Z.to_nat i). split; [lia|].
    apply in_seq. rewrite Z.div_1_r. lia.
Qed.

Lemma run_body_emit {A} (body : Z -> list A -> Completion (list A)) (f : Z -> list A) :
  (forall i s, body i s = Return (s ++ f i)) ->
  forall counters s, run_body body counters s = Return (s ++ flat_map f counters).
Proof.
  intros Hbody counters. induction counters as [|i rest IH]; intros s; simpl.
  - now rewrite app_nil_r.
  - rewrite Hbody. simpl. rewrite IH. now rewrite app_assoc.
Qed.

Lemma for_loop_emit {A} (lo hi step : Z) (body : Z -> list A -> Completion (list A))
      (f : Z -> list A) :
  (forall i s, body i s = Return (s ++ f i)) ->
  forall s, for_loop lo hi step body s = Return (s ++ flat_map f (counter_values lo hi step)).
Proof. intros Hbody s. unfold for_loop. now apply run_body_emit. Qed.

Lemma counter_values_step (lo hi step : Z) :
  0 < step ->
  counter_values lo hi step
  = if lo <? hi then lo :: counter_values (lo + step) hi step else [].
Proof.
  intros Hstep. unfold counter_values.
  destruct (Z.ltb_spec lo hi) as [Hlt|Hge].
  - replace (hi - lo + step - 1) with ((hi - lo - 1) + 1 * step) by lia.
    rewrite Z.div_add by lia.
    replace (hi - (lo + step) + step - 1) with (hi - lo - 1) by lia.
    assert (Hq : 0 <= (hi - lo - 1) / step) by (apply Z.div_pos; lia).
    replace (Z.to_nat ((hi - lo - 1) / step + 1))
      with (Datatypes.S (Z.to_nat ((hi - lo - 1) / step))) by lia.
    simpl. f_equal; [lia|].
    rewrite <- seq_shift, map_map. apply map_ext. intros k. lia.
  - assert (Hq : (hi - lo + step - 1) / step <= 0).
    { apply Z.lt_succ_r. apply Z.div_lt_upper_bound; lia. }
    replace (Z.to_nat ((hi - lo + step - 1) / step)) with O by lia.
    reflexivity.
Qed.

(** With a positive step the loop ends: given more fuel than it has
    counter values, the stepwise loop returns what [for_loop] returns. *)
Lemma for_steps_for_loop {State} (hi step : Z) (body : Z -> State -> Completion State) :
  0 < step ->
  forall fuel lo s,
    (List.length (counter_values lo hi step) < fuel)%nat ->
    for_steps fuel lo hi step body s = Some (for_loop lo hi step body s).
Proof.
  intros Hstep. unfold for_loop.
  induction fuel as [|fuel IH]; intros lo s Hfuel; [lia|].
  rewrite (counter_values_step lo hi step Hstep) in *. simpl.
  destruct (lo <? hi); [|reflexivity].
  simpl in *. destruct (body lo s) as [s'|e]; [|reflexivity].
  simpl. apply IH. lia.
Qed.

(** ** One mesh, and the three loops *)

Section Mesher.

Context {num : Type} {N : Number num}.
Local Open Scope num_scope.

Lemma getUVForBlock_quad (id : Z) : getUVForBlock id = Return (quad id).
Proof. reflexivity. Qed.

Lemma createBlockMesh_air (x y z : Z) : createBlockMesh (num:=num) 0 x y z = Return None.
Proof. reflexivity. Qed.

Lemma createBlockMesh_cube (id x y z : Z) :
  id <> 0%Z -> createBlockMesh id x y z = Return (Some (cube id x y z)).
Proof.
  intros Hid. unfold createBlockMesh.
  destruct (Z.eqb_spec id 0) as [|_]; [contradiction|].
  reflexivity.
Qed.

(** The three loops add [world_cubes] behind whatever the scene holds,
    and never throw. *)
Lemma world_loop_emits (scene : Scene num) :
  world_loop scene = Return (scene ++ world_cubes).
Proof.
  unfold world_loop, world_cubes.
  apply for_loop_emit. intros x s.
  apply for_loop_emit. intros z s'.
  apply for_loop_emit. intros y s''.
  unfold visit. destruct (Z.gtb_spec (blockIdAt y) 0) as [Hpos|Hnon].
  - rewrite createBlockMesh_cube by lia. reflexivity.
  - now rewrite app_nil_r.
Qed.

End Mesher.

(** ** The grid *)

Lemma generate_holds (x y z id : Z) :
  In (x, y, z, id) generate <-> in_extent x y z /\ id = blockIdAt y.
Proof.
  unfold generate, in_extent. rewrite in_flat_map. split.
  - intros [x' [Hx Hin]]. apply in_flat_map in Hin. destruct Hin as [z' [Hz Hin]].
    apply in_map_iff in Hin. destruct Hin as [y' [Heq Hy]].
    inversion Heq; subst.
    apply counter_values_unit in Hx, Hy, Hz. tauto.
  - intros [[Hx [Hy Hz]] ->]. exists x. split; [now apply counter_values_unit|].
    apply in_flat_map. exists z. split; [now apply counter_values_unit|].
    apply in_map_iff. exists y. split; [reflexivity|now apply counter_values_unit].
Qed.

Lemma blockAt_outside (x y z : Z) : ~ in_extent x y z -> blockAt x y z = 0.
Proof.
  intros Hout. unfold blockAt.
  destruct (find (voxel_at x y z) generate) as [[[[vx vy] vz] id]|] eqn:Hfind; [|reflexivity].
  exfalso. apply Hout. apply find_some in Hfind. destruct Hfind as [Hin Hat].
  simpl in Hat. apply andb_true_iff in Hat. destruct Hat as [Hat Hz].
  apply andb_true_iff in Hat. destruct Hat as [Hx Hy].
  apply Z.eqb_eq in Hx, Hy, Hz. subst.
  now apply generate_holds in Hin.
Qed.

Lemma blockAt_inside (x y z : Z) : in_extent x y z -> blockAt x y z = blockIdAt y.
Proof.
  intros Hin. unfold blockAt.
  assert (Hmem : In (x, y, z, blockIdAt y) generate) by (apply generate_holds; auto).
  destruct (find (voxel_at x y z) generate) as [[[[vx vy] vz] id]|] eqn:Hfind.
  - apply find_some in Hfind. destruct Hfind as [Hv Hat].
    simpl in Hat. apply andb_true_iff in Hat. destruct Hat as [Hat Hz].
    apply andb_true_iff in Hat. destruct Hat as [Hx Hy].
    apply Z.eqb_eq in Hx, Hy, Hz. subst.
    apply generate_holds in Hv. simpl. tauto.
  - exfalso. eapply find_none in Hfind; [|exact Hmem].
    simpl in Hfind. rewrite !Z.eqb_refl in Hfind. discriminate.
Qed.

Lemma blockIdAt_layers (y : Z) :
  (y = 0 -> blockIdAt y = 1) /\
  (1 <= y < 4 -> blockIdAt y = 2) /\
  (4 <= y < 8 -> blockIdAt y = 3) /\
  (0 <= y < 8 -> blockIdAt y > 0).
Proof.
  unfold blockIdAt.
  destruct (Z.eqb_spec y 0); destruct (Z.ltb_spec y 4); destruct (Z.ltb_spec y 8);
    repeat split; intros; lia.
Qed.

Lemma map_filter_flat_map {A B C} (g : A -> list B) (p : B -> bool) (f : B -> C)
      (l : list A) :
  map f (filter p (flat_map g l)) = flat_map (fun a => map f (filter p (g a))) l.
Proof.
  induction l as [|a l IH]; simpl; [reflexivity|].
  now rewrite filter_app, map_app, IH.
Qed.

Section MesherGrid.

Context {num : Type} {N : Number num}.

Lemma visit_column (x z : Z) (layers : list Z) :
  map cube_of (filter solid (map (fun y => (x, y, z, blockIdAt y)) layers))
  = flat_map (visit x z) layers.
Proof.
  induction layers as [|y layers IH]; simpl; [reflexivity|].
  unfold visit at 1, solid at 1, voxel_id. simpl.
  destruct (blockIdAt y >? 0)%Z; simpl; now rewrite IH.
Qed.

(** The cubes of the scene are those of the solid voxels of the grid,
    in the order of the grid. *)
Lemma world_cubes_generate : world_cubes = map cube_of (filter solid generate).
Proof.
  unfold world_cubes, generate. rewrite map_filter_flat_map.
  apply flat_map_ext. intros x.
  rewrite map_filter_flat_map. apply flat_map_ext. intros z.
  symmetry. apply visit_column.
Qed.

Lemma world_cubes_from_extent (m : Mesh num) :
  In m world_cubes ->
  exists x y z, in_extent x y z /\ blockAt x y z <> 0%Z /\ m = cube (blockAt x y z) x y z.
Proof.
  rewrite world_cubes_generate. intros Hin.
  apply in_map_iff in Hin. destruct Hin as [[[[x y] z] id] [<- Hv]].
  apply filter_In in Hv. destruct Hv as [Hv Hsolid].
  apply generate_holds in Hv. destruct Hv as [Hext ->].
  unfold solid, voxel_id in Hsolid. simpl in Hsolid.
  exists x, y, z. rewrite (blockAt_inside _ _ _ Hext).
  repeat split; try apply Hext. apply Z.gtb_lt in Hsolid. lia.
Qed.

End MesherGrid.

(** C4: generation is the flat terrain, the same at every run.  In every
    column of the chunk, layer 0 is grass (id 1), layers 1 to 3 are dirt
    (id 2), layers 4 to 7 are stone (id 3) and every other layer is air
    (id 0).  And whatever the scene holds, under whatever arithmetic, the
    loops end and add to it the cubes of the solid voxels of the one grid
    [generate]: a second run generates the same blocks as the first. *)
Theorem generation_flat_and_deterministic (x y z : Z) :
  0 <= x < CHUNK_SIZE -> 0 <= z < CHUNK_SIZE ->
  (y = 0 -> blockAt x y z = 1 /\ BLOCK_TYPES 1 = Some (Some "grass"%string)) /\
  (1 <= y < 4 -> blockAt x y z = 2 /\ BLOCK_TYPES 2 = Some (Some "dirt"%string)) /\
  (4 <= y < 8 -> blockAt x y z = 3 /\ BLOCK_TYPES 3 = Some (Some "stone"%string)) /\
  (y < 0 \/ 8 <= y -> blockAt x y z = 0 /\ BLOCK_TYPES 0 = Some None) /\
  (forall num (N : Number num) (scene : Scene num),
      world_loop scene = Return (scene ++ map cube_of (filter solid generate))).
Proof.
  intros Hx Hz.
  assert (Hin : 0 <= y < 8 -> blockAt x y z = blockIdAt y).
  { intros Hy. apply blockAt_inside. unfold in_extent, WORLD_HEIGHT. auto. }
  destruct (blockIdAt_layers y) as [H0 [H1 [H4 _]]].
  split; [|split; [|split; [|split]]].
  - intros Hy. rewrite Hin by lia. auto.
  - intros Hy. rewrite Hin by lia. auto.
  - intros Hy. rewrite Hin by lia. auto.
  - intros Hy. split; [|reflexivity].
    apply blockAt_outside. unfold in_extent, WORLD_HEIGHT. lia.
  - intros num N scene. rewrite <- world_cubes_generate. apply world_loop_emits.
Qed.

Lemma generation_flat_and_deterministic_witness :
  blockAt 3 2 5 = 2 /\ BLOCK_TYPES 2 = Some (Some "dirt"%string).
Proof.
  apply (generation_flat_and_deterministic 3 2 5); unfold CHUNK_SIZE; lia.
Defined.

(** C6: outside the generated extent the lookup answers air (id 0); it is
    a total function, and no voxel of the grid lies there. *)
Theorem blockAt_outside_extent_is_air (x y z : Z) :
  (x < 0 \/ CHUNK_SIZE <= x) \/ (z < 0 \/ CHUNK_SIZE <= z) \/ (y < 0 \/ WORLD_HEIGHT <= y) ->
  blockAt x y z = 0 /\ BLOCK_TYPES (blockAt x y z) = Some None /\
  forall id, ~ In (x, y, z, id) generate.
Proof.
  intros Hout.
  assert (Hnot : ~ in_extent x y z) by (unfold in_extent; lia).
  rewrite (blockAt_outside _ _ _ Hnot). repeat split.
  intros id Hin. apply generate_holds in Hin. tauto.
Qed.

Lemma blockAt_outside_extent_is_air_witness :
  blockAt 16 0 (-1) = 0 /\ BLOCK_TYPES (blockAt 16 0 (-1)) = Some None /\
  forall id, ~ In (16, 0, -1, id) generate.
Proof.
  apply (blockAt_outside_extent_is_air 16 0 (-1)). unfold CHUNK_SIZE. lia.
Defined.

Lemma forallb3 (P : Z -> Z -> Z -> bool) (xs zs ys : list Z) :
  forallb (fun x => forallb (fun z => forallb (fun y => P x z y) ys) zs) xs = true ->
  forall x z y, In x xs -> In z zs -> In y ys -> P x z y = true.
Proof.
  intros H x z y Hx Hz Hy.
  rewrite forallb_forall in H. specialize (H x Hx).
  rewrite forallb_forall in H. specialize (H z Hz).
  rewrite forallb_forall in H. exact (H y Hy).
Qed.

(** ** The scene, in binary64 *)

Module SceneFloat.

Local Open Scope float_scope.

Lemma one_cube_per_voxel :
  let scene := world_cubes in
  forallb
    (fun x =>
       forallb
         (fun z =>
            forallb
              (fun y => Nat.eqb (List.length (cubes_at (block_centre x y z) scene)) 1)
              (counter_values 0 WORLD_HEIGHT 1))
         (counter_values 0 CHUNK_SIZE 1))
    (counter_values 0 CHUNK_SIZE 1) = true.
Proof. vm_compute. reflexivity. Qed.

Lemma one_cube_at_centre (x y z : Z) :
  in_extent x y z -> List.length (cubes_at (block_centre x y z) world_cubes) = 1%nat.
Proof.
  intros [Hx [Hy Hz]]. apply counter_values_unit in Hx, Hy, Hz.
  apply Nat.eqb_eq.
  apply (forallb3
           (fun x z y => Nat.eqb (List.length (cubes_at (block_centre x y z) world_cubes)) 1)
           _ _ _ one_cube_per_voxel x z y Hx Hz Hy).
Qed.

Lemma world_cubes_length : List.length (world_cubes (num:=float)) = 2048%nat.
Proof. vm_compute. reflexivity. Qed.

Lemma cube_in_scene (x y z : Z) :
  in_extent x y z -> In (cube (num:=float) (blockAt x y z) x y z) world_cubes.
Proof.
  intros Hext. rewrite world_cubes_generate. apply in_map_iff.
  exists (x, y, z, blockAt x y z). split; [reflexivity|].
  apply filter_In. split.
  - apply generate_holds. split; [assumption|now apply blockAt_inside].
  - unfold solid, voxel_id. simpl. apply Z.gtb_lt.
    rewrite blockAt_inside by assumption.
    destruct Hext as [_ [Hy _]]. apply blockIdAt_layers in Hy. lia.
Qed.

(** C2: the mesh follows the world.  The loops, started on an empty
    scene, end without a throw on 16*16*8 = 2048 cubes.  Every voxel of
    the extent is solid, its cube is in the scene, sits at
    (x+0.5, y+0.5, z+0.5), and is the only cube of the scene there;
    every cube of the scene is the cube of a solid voxel of the extent;
    and an air block gets no mesh. *)
Theorem mesh_follows_world :
  world_loop (num:=float) [] = Return world_cubes /\
  List.length (world_cubes (num:=float)) = Z.to_nat (16 * 16 * 8) /\
  (forall x y z, in_extent x y z ->
     blockAt x y z <> 0%Z /\
     In (cube (num:=float) (blockAt x y z) x y z) world_cubes /\
     mesh_position (cube (blockAt x y z) x y z) = block_centre x y z /\
     List.length (cubes_at (block_centre x y z) world_cubes) = 1%nat) /\
  (forall m, In m (world_cubes (num:=float)) ->
     exists x y z, in_extent x y z /\ blockAt x y z <> 0%Z /\
                   m = cube (blockAt x y z) x y z) /\
  (forall x y z, createBlockMesh (num:=float) 0 x y z = Return None).
Proof.
  split; [apply (world_loop_emits (num:=float) [])|].
  split; [apply world_cubes_length|].
  split; [|split; [apply world_cubes_from_extent|reflexivity]].
  intros x y z Hext. split; [|split; [|split]].
  - rewrite blockAt_inside by assumption.
    destruct Hext as [_ [Hy _]]. apply blockIdAt_layers in Hy. lia.
  - now apply cube_in_scene.
  - reflexivity.
  - now apply one_cube_at_centre.
Qed.

Lemma mesh_follows_world_witness :
  blockAt 3 2 5 <> 0%Z /\
  In (cube (num:=float) (blockAt 3 2 5) 3 2 5) world_cubes /\
  mesh_position (cube (blockAt 3 2 5) 3 2 5) = block_centre 3 2 5 /\
  List.length (cubes_at (block_centre 3 2 5) world_cubes) = 1%nat.
Proof.
  apply (proj1 (proj2 (proj2 mesh_follows_world)) 3%Z 2%Z 5%Z).
  unfold in_extent, CHUNK_SIZE, WORLD_HEIGHT. lia.
Defined.

Example block_centre_3_2_5 : block_centre 3 2 5 = mkVector3 3.5 2.5 5.5.
Proof. reflexivity. Qed.

End SceneFloat.

(** ** The scene, in exact arithmetic *)

Module SceneReal.

Local Open Scope R_scope.

Lemma centre_injective (x y z x' y' z' : Z) :
  centre (num:=R) x y z = centre x' y' z' -> x = x' /\ y = y' /\ z = z'.
Proof.
  unfold centre, lit. simpl. intros H. injection H as Hx Hy Hz.
  repeat split; apply eq_IZR; lra.
Qed.

(** No cube sits at the centre of a voxel outside the extent, and the
    cube at the centre of a voxel of the extent is the cube of that voxel. *)
Lemma cubes_by_position (x y z : Z) (m : Mesh R) :
  In m world_cubes -> mesh_position m = centre x y z ->
  in_extent x y z /\ m = cube (blockAt x y z) x y z.
Proof.
  intros Hin Hpos.
  apply world_cubes_from_extent in Hin. destruct Hin as [x' [y' [z' [Hext [_ ->]]]]].
  change (centre (num:=R) x' y' z' = centre x y z) in Hpos.
  apply centre_injective in Hpos. destruct Hpos as [-> [-> ->]]. auto.
Qed.

End SceneReal.

(** ** The UV lookup *)

Section Atlas.

Context {num : Type} {N : Number num}.

(** C7, as the code has it: the lookup has no failing path.  For every
    id, air and unregistered ids included, it returns a quad of four
    coordinates; it is [createBlockMesh] that answers [null] for air
    before any lookup. *)
Theorem getUVForBlock_total (id : Z) :
  (exists q, getUVForBlock (num:=num) id = Return q /\ List.length q = 4%nat) /\
  ~ throws (getUVForBlock (num:=num) id) /\
  (forall x y z, createBlockMesh (num:=num) 0 x y z = Return None).
Proof.
  split; [|split].
  - exists (quad id). split; reflexivity.
  - intros [e He]. discriminate He.
  - reflexivity.
Qed.

(** The [uv] buffer of a cube is its stored quad, six times over. *)
Lemma cube_faces (id x y z : Z) (face k : nat) :
  (face < 6)%nat -> (k < 4)%nat ->
  nth_error (geometry_uv (cube (num:=num) id x y z)) (4 * face + k)
  = nth_error (stored (quad id)) k.
Proof.
  intros Hface Hk. unfold cube, geometry_uv.
  do 6 (destruct face as [|face]; [do 4 (destruct k as [|k]; [reflexivity|]); lia|]).
  lia.
Qed.

End Atlas.

(** C7 as the specification states it fails on the code: at air (id 0),
    and at an id the registry does not have (99), the lookup does not
    fail; it returns the quad left of the atlas, or far to its right. *)
Lemma getUVForBlock_air_and_unknown_succeed :
  BLOCK_TYPES 0 = Some None /\
  getUVForBlock (num:=float) 0
  = Return [ mkVector2 (-0.0625)%float 0.9375%float; mkVector2 0%float 0.9375%float;
             mkVector2 0%float 1%float; mkVector2 (-0.0625)%float 1%float ] /\
  ~ throws (getUVForBlock (num:=float) 0) /\
  BLOCK_TYPES 99 = None /\
  getUVForBlock (num:=float) 99
  = Return [ mkVector2 6.125%float 0.9375%float; mkVector2 6.1875%float 0.9375%float;
             mkVector2 6.1875%float 1%float; mkVector2 6.125%float 1%float ] /\
  ~ throws (getUVForBlock (num:=float) 99).
Proof.
  repeat split; try reflexivity; intros [e He]; discriminate He.
Qed.

(** ** The atlas cell of a block, in exact arithmetic *)

Module AtlasReal.

Local Open Scope R_scope.

Lemma quad_is_cell_quad (i : Z) : quad (num:=R) i = cell_quad i.
Proof.
  unfold quad, cell_quad, atlasBlockSize, cellSize. cbn.
  rewrite minus_IZR.
  repeat (f_equal; try lra).
Qed.

Lemma stored_exact (q : list (Vector2 R)) : stored q = q.
Proof.
  induction q as [|[u v] q IH]; [reflexivity|].
  change (stored ({| uv_x := u; uv_y := v |} :: q))
    with ({| uv_x := u; uv_y := v |} :: stored q).
  now rewrite IH.
Qed.

(** In exact arithmetic, for every id from 1 on. *)
Lemma uv_cell_real (i x y z : Z) :
  (1 <= i)%Z ->
  getUVForBlock (num:=R) i = Return (cell_quad i) /\
  exists mesh,
    createBlockMesh (num:=R) i x y z = Return (Some mesh) /\
    faces_hold mesh (cell_quad i).
Proof.
  intros Hi. split.
  - rewrite getUVForBlock_quad. now rewrite quad_is_cell_quad.
  - exists (cube i x y z). split; [apply createBlockMesh_cube; lia|].
    split; [reflexivity|].
    intros face k Hface Hk. rewrite cube_faces by assumption.
    now rewrite stored_exact, quad_is_cell_quad.
Qed.

End AtlasReal.

(** The same cells in binary64, for the sixteen ids of the top row: the
    edges are the exact multiples of 1/16, and the binary32 buffer keeps
    them unchanged. *)
Module AtlasFloat.

Local Open Scope float_scope.

Lemma uv_cell_top_row (i : Z) :
  (1 <= i <= 16)%Z ->
  getUVForBlock (num:=float) i = Return (cell_quad64 i) /\
  stored (cell_quad64 i) = cell_quad64 i.
Proof.
  intros Hi.
  assert (Hcases : In i (map Z.of_nat (seq 1 16))).
  { apply in_map_iff. exists (Z.to_nat i). split; [lia|]. apply in_seq. lia. }
  simpl in Hcases.
  repeat (destruct Hcases as [<-|Hcases]; [split; reflexivity|]).
  contradiction.
Qed.

(** In binary64, for the sixteen ids of the top row. *)
Lemma uv_cell_float (i x y z : Z) :
  (1 <= i <= 16)%Z ->
  getUVForBlock (num:=float) i = Return (cell_quad64 i) /\
  exists mesh,
    createBlockMesh (num:=float) i x y z = Return (Some mesh) /\
    faces_hold mesh (cell_quad64 i).
Proof.
  intros Hi. destruct (uv_cell_top_row i Hi) as [Hquad Hstored].
  split; [exact Hquad|].
  exists (cube i x y z). split; [apply createBlockMesh_cube; lia|].
  split; [reflexivity|].
  intros face k Hface Hk. rewrite cube_faces by assumption.
  assert (Hq : quad (num:=float) i = cell_quad64 i)
    by (rewrite getUVForBlock_quad in Hquad; congruence).
  now rewrite Hq, Hstored.
Qed.

End AtlasFloat.

(** C9: for a block id [i >= 1] the lookup returns the quad whose
    horizontal span is [(i-1)*cellSize, i*cellSize], with cellSize = 1/16,
    and whose vertical span is [1 - 1/16, 1], the top row; the mesh of
    the block has 24 UV vertices, and each of its 6 groups of 4 holds
    that quad.  So it is in exact arithmetic for every id; and so it is
    in binary64, bit for bit and through the binary32 buffer, for the
    ids 1 to 16 that the row of the atlas has cells for. *)
Theorem uv_cell_on_all_faces (i x y z : Z) :
  (1 <= i)%Z ->
  (getUVForBlock (num:=R) i = Return (cell_quad i) /\
   exists mesh,
     createBlockMesh (num:=R) i x y z = Return (Some mesh) /\
     faces_hold mesh (cell_quad i)) /\
  ((i <= 16)%Z ->
   getUVForBlock (num:=float) i = Return (cell_quad64 i) /\
   exists mesh,
     createBlockMesh (num:=float) i x y z = Return (Some mesh) /\
     faces_hold mesh (cell_quad64 i)).
Proof.
  intros Hi. split.
  - now apply AtlasReal.uv_cell_real.
  - intros Hrow. apply AtlasFloat.uv_cell_float. lia.
Qed.

(** Dirt, id 2, at the voxel (0, 1, 0). *)
Lemma uv_cell_on_all_faces_witness :
  (getUVForBlock (num:=R) 2 = Return (cell_quad 2) /\
   exists mesh,
     createBlockMesh (num:=R) 2 0 1 0 = Return (Some mesh) /\
     faces_hold mesh (cell_quad 2)) /\
  ((2 <= 16)%Z ->
   getUVForBlock (num:=float) 2 = Return (cell_quad64 2) /\
   exists mesh,
     createBlockMesh (num:=float) 2 0 1 0 = Return (Some mesh) /\
     faces_hold mesh (cell_quad64 2)).
Proof. apply (uv_cell_on_all_faces 2 0 1 0). lia. Defined.

(** ** Frames and events, in any arithmetic *)

Section Frames.

Context {num : Type} {N : Number num}.
Local Open Scope num_scope.

(** *** What a frame leaves alone *)

Lemma animate_move_keeps (delta : num) (g : Game num) :
  canJump (animate_move delta g) = canJump g /\
  camera_rotation (animate_move delta g) = camera_rotation g /\
  mouse_listener (animate_move delta g) = mouse_listener g /\
  moveForward (animate_move delta g) = moveForward g /\
  moveBackward (animate_move delta g) = moveBackward g /\
  moveLeft (animate_move delta g) = moveLeft g /\
  moveRight (animate_move delta g) = moveRight g.
Proof.
  destruct g as [p r f b l ri cj v d ml].
  destruct f, b, l, ri; repeat split.
Qed.

Lemma animate_move_velocity_y (delta : num) (g : Game num) :
  vec_y (velocity (animate_move delta g)) = vec_y (velocity g) - lit 9.8 * delta.
Proof.
  destruct g as [p r f b l ri cj v d ml].
  destruct f, b, l, ri; reflexivity.
Qed.

Lemma animate_move_position_y (delta : num) (g : Game num) :
  vec_y (camera_position (animate_move delta g))
  = vec_y (camera_position g) + (vec_y (velocity g) - lit 9.8 * delta) * delta.
Proof.
  destruct g as [p r f b l ri cj v d ml].
  destruct f, b, l, ri; reflexivity.
Qed.

Lemma animate_ground_keeps (g : Game num) :
  camera_rotation (animate_ground g) = camera_rotation g /\
  direction (animate_ground g) = direction g /\
  mouse_listener (animate_ground g) = mouse_listener g.
Proof.
  unfold animate_ground.
  destruct (vec_y (camera_position g) <? of_Z 2); repeat split.
Qed.

Lemma keydown_keeps (code : string) (g : Game num) :
  camera_position (keydown code g) = camera_position g /\
  camera_rotation (keydown code g) = camera_rotation g /\
  direction (keydown code g) = direction g /\
  mouse_listener (keydown code g) = mouse_listener g.
Proof.
  unfold keydown.
  repeat (match goal with |- context [String.eqb ?a ?b] => destruct (String.eqb a b) end);
    try (repeat split; fail).
  destruct (canJump g); repeat split.
Qed.

Lemma keyup_keeps (code : string) (g : Game num) :
  camera_position (keyup code g) = camera_position g /\
  camera_rotation (keyup code g) = camera_rotation g /\
  direction (keyup code g) = direction g /\
  mouse_listener (keyup code g) = mouse_listener g.
Proof.
  unfold keyup.
  repeat (match goal with |- context [String.eqb ?a ?b] => destruct (String.eqb a b) end);
    repeat split.
Qed.

Lemma onPointerLockChange_keeps (locked : bool) (g : Game num) :
  camera_position (onPointerLockChange locked g) = camera_position g /\
  camera_rotation (onPointerLockChange locked g) = camera_rotation g /\
  direction (onPointerLockChange locked g) = direction g.
Proof. destruct locked; repeat split. Qed.

Lemma onMouseMove_keeps (mx my : num) (g : Game num) :
  camera_position (onMouseMove mx my g) = camera_position g /\
  direction (onMouseMove mx my g) = direction g /\
  mouse_listener (onMouseMove mx my g) = mouse_listener g.
Proof. repeat split. Qed.

(** *** The frame in closed form *)

(** Lines 181-194, statement by statement, come to these formulas in any
    arithmetic. *)
Lemma animate_move_formulas (dt : num) (g : Game num) :
  let v := velocity g in
  let p := camera_position g in
  let dir := frame_direction g in
  let vy := vec_y v - lit 9.8 * dt in
  let vx := vec_x v - vec_x v * of_Z 10 * dt in
  let vz := vec_z v - vec_z v * of_Z 10 * dt in
  let vz := if moveForward g || moveBackward g then vz - vec_z dir * of_Z 20 * dt else vz in
  let vx := if moveLeft g || moveRight g then vx - vec_x dir * of_Z 20 * dt else vx in
  direction (animate_move dt g) = dir /\
  velocity (animate_move dt g) = mkVector3 vx vy vz /\
  camera_position (animate_move dt g)
  = mkVector3 (vec_x p + vx * dt) (vec_y p + vy * dt) (vec_z p + vz * dt).
Proof.
  destruct g as [p r f b l ri cj v d ml].
  destruct f, b, l, ri; repeat split.
Qed.

(** *** The ground clamp *)

Lemma ground_clamp (delta : num) (g : Game num) :
  (vec_y (camera_position (animate_move delta g)) <? of_Z 2) = true ->
  vec_y (camera_position (animate delta g)) = of_Z 2 /\
  vec_y (velocity (animate delta g)) = of_Z 0 /\
  canJump (animate delta g) = true.
Proof.
  intros Hlow. unfold animate, animate_ground. rewrite Hlow. repeat split.
Qed.

(** *** The jump (C5) *)

(** C5: a Space key pressed while the jump is available adds exactly 8
    to [velocity.y] and takes the jump away; pressed while it is not
    available it changes neither velocity nor position.  The jump comes
    back only where a frame puts the camera on the ground: no other
    event sets [canJump]. *)
Theorem jump_consumed (g : Game num) :
  (canJump g = true ->
     velocity (keydown "Space" g) = set_y (vec_y (velocity g) + of_Z 8) (velocity g) /\
     camera_position (keydown "Space" g) = camera_position g /\
     canJump (keydown "Space" g) = false) /\
  (canJump g = false ->
     velocity (keydown "Space" g) = velocity g /\
     camera_position (keydown "Space" g) = camera_position g /\
     canJump (keydown "Space" g) = false) /\
  (forall e, canJump g = false -> canJump (handle g e) = true ->
     exists delta, e = Frame delta /\
                   (vec_y (camera_position (animate_move delta g)) <? of_Z 2) = true /\
                   vec_y (camera_position (handle g e)) = of_Z 2 /\
                   vec_y (velocity (handle g e)) = of_Z 0).
Proof.
  split; [|split].
  - intros Hjump. unfold keydown. simpl. rewrite Hjump. auto.
  - intros Hjump. unfold keydown. simpl. rewrite Hjump. auto.
  - intros e Hno Hyes. destruct e as [delta|code|code|locked|mx my]; simpl in Hyes.
    + exists delta. split; [reflexivity|].
      unfold handle, animate, animate_ground in *.
      destruct (vec_y (camera_position (animate_move delta g)) <? of_Z 2) eqn:Hlow.
      * auto.
      * exfalso. destruct (animate_move_keeps delta g) as [Hkeep _]. congruence.
    + exfalso. revert Hyes. unfold keydown.
      repeat (match goal with |- context [String.eqb ?a ?b] => destruct (String.eqb a b) end);
        simpl; congruence.
    + exfalso. revert Hyes. unfold keyup.
      repeat (match goal with |- context [String.eqb ?a ?b] => destruct (String.eqb a b) end);
        simpl; congruence.
    + exfalso. revert Hyes. unfold onPointerLockChange. destruct locked; simpl; congruence.
    + exfalso. revert Hyes. destruct (mouse_listener g); simpl; congruence.
Qed.

End Frames.

(** ** A frame, in binary64 *)

Module MovementFloat.

Local Open Scope float_scope.

(** The program's decimal literals are the nearest binary64 numbers. *)
Lemma literals :
  lit (num:=float) 9.8 = 0x1.399999999999ap+3 /\
  lit (num:=float) 0.002 = 0x1.0624dd2f1a9fcp-9 /\
  lit (num:=float) 0.5 = 0.5.
Proof. repeat split. Qed.

(** In binary64 the direction of the program is the direction of the
    specification: the nine vectors the flags can give are computed. *)
Lemma frame_direction_float (g : Game float) :
  vec_y (direction g) = 0 ->
  frame_direction g
  = spec_direction (moveForward g) (moveBackward g) (moveLeft g) (moveRight g).
Proof.
  destruct g as [p r f b l ri cj v [dx dy dz] ml]. intros Hdy.
  change (dy = 0) in Hdy. subst dy.
  destruct f, b, l, ri; reflexivity.
Qed.

Lemma frame_formulas_float (dt : float) (g : Game float) :
  vec_y (direction g) = 0 ->
  velocity (animate_move dt g) = spec_velocity dt g /\
  camera_position (animate_move dt g) = spec_position dt g.
Proof.
  intros Hdy. destruct (animate_move_formulas dt g) as [_ [Hv Hp]].
  rewrite (frame_direction_float g Hdy) in Hv, Hp. split; assumption.
Qed.

Example frame_scenario_values :
  velocity (animate_move 1 at_rest_forward)
  = mkVector3 0 (-0x1.399999999999ap+3) (-20) /\
  camera_position (animate_move 1 at_rest_forward)
  = mkVector3 8 0x1.999999999998p-3 (-12) /\
  velocity (animate 1 at_rest_forward) = mkVector3 0 0 (-20) /\
  camera_position (animate 1 at_rest_forward) = mkVector3 8 2 (-12) /\
  canJump (animate 1 at_rest_forward) = true.
Proof. repeat split. Qed.

(** [normalize] never divides by zero: its divisor is the length when
    that is a number other than 0, and 1 otherwise. *)
Lemma normalize_divisor_truthy (v : Vector3 float) :
  Float64.truthy (normalize_divisor v) = true.
Proof.
  unfold normalize_divisor, or_else.
  change (@truthy float Float64_Number) with Float64.truthy.
  destruct (Float64.truthy (length3 v)) eqn:Hlen; [exact Hlen|reflexivity].
Qed.

(** C8: with the four flags down, the direction is the zero vector,
    [normalize] divides it by 1 and leaves it the zero vector (no NaN,
    no infinity), and the frame adds no acceleration: velocity and
    position are those of gravity, damping and integration alone, so
    that the normalisation puts no NaN or infinity into them. *)
Theorem no_input_no_acceleration (dt : float) (g : Game float) :
  moveForward g = false -> moveBackward g = false ->
  moveLeft g = false -> moveRight g = false ->
  vec_y (direction g) = 0 ->
  let v := velocity g in
  let p := camera_position g in
  normalize_divisor (mkVector3 0 0 0) = 1 /\
  normalize (mkVector3 0 0 0) = mkVector3 0 0 0 /\
  direction (animate_move dt g) = mkVector3 0 0 0 /\
  velocity (animate_move dt g)
  = mkVector3 (vec_x v - vec_x v * 10 * dt)
              (vec_y v - 0x1.399999999999ap+3 * dt)
              (vec_z v - vec_z v * 10 * dt) /\
  camera_position (animate_move dt g)
  = mkVector3 (vec_x p + (vec_x v - vec_x v * 10 * dt) * dt)
              (vec_y p + (vec_y v - 0x1.399999999999ap+3 * dt) * dt)
              (vec_z p + (vec_z v - vec_z v * 10 * dt) * dt).
Proof.
  destruct g as [p r f b l ri cj v [dx dy dz] ml].
  intros Hf Hb Hl Hr Hdy.
  change (f = false) in Hf. change (b = false) in Hb.
  change (l = false) in Hl. change (ri = false) in Hr.
  change (dy = 0) in Hdy. subst.
  repeat split.
Qed.

Lemma no_input_no_acceleration_witness :
  direction (animate_move 0.25 initial) = mkVector3 0 0 0 /\
  velocity (animate_move 0.25 initial) = mkVector3 0 (-0x1.399999999999ap+1) 0 /\
  camera_position (animate_move 0.25 initial) = mkVector3 8 0x1.2c66666666666p+3 8.
Proof.
  pose proof (no_input_no_acceleration 0.25 initial
                eq_refl eq_refl eq_refl eq_refl eq_refl) as H.
  destruct H as [_ [_ [Hdir [Hv Hp]]]].
  split; [exact Hdir|]. split; [exact Hv|exact Hp].
Defined.

(** The [y] of the direction vector is 0 after every run. *)
Lemma direction_y_kept (events : list (Event float)) (g : Game float) :
  vec_y (direction g) = 0 -> vec_y (direction (run events g)) = 0.
Proof.
  revert g. induction events as [|e events IH]; intros g Hg; [exact Hg|].
  change (run (e :: events) g) with (run events (handle g e)).
  apply IH. destruct e as [delta|code|code|locked|mx my]; unfold handle.
  - unfold animate.
    destruct (animate_ground_keeps (animate_move delta g)) as [_ [-> _]].
    destruct g as [p r f b l ri cj v [dx dy dz] ml].
    change (dy = 0) in Hg. subst dy. destruct f, b, l, ri; reflexivity.
  - destruct (keydown_keeps code g) as [_ [_ [-> _]]]. exact Hg.
  - destruct (keyup_keeps code g) as [_ [_ [-> _]]]. exact Hg.
  - destruct (onPointerLockChange_keeps locked g) as [_ [_ ->]]. exact Hg.
  - destruct (mouse_listener g); [|exact Hg].
    destruct (onMouseMove_keeps mx my g) as [_ [-> _]]. exact Hg.
Qed.

Lemma direction_y_reachable (events : list (Event float)) :
  vec_y (direction (run events initial)) = 0.
Proof. now apply direction_y_kept. Qed.

End MovementFloat.

(** ** Facts of the binary64 specification *)

Section SpecFloatFacts.

Variables prec emax : Z.

Lemma shr_1_nonneg (mrs : shr_record) : 0 <= shr_m mrs -> 0 <= shr_m (shr_1 mrs).
Proof.
  destruct mrs as [m r s]. simpl.
  destruct m as [|p|p]; [simpl; lia| |lia].
  intros _. destruct p; simpl; lia.
Qed.

Lemma iter_shr_1_nonneg (p : positive) (mrs : shr_record) :
  0 <= shr_m mrs -> 0 <= shr_m (iter_pos shr_1 p mrs).
Proof.
  revert mrs. induction p as [p IH|p IH|]; intros mrs Hm; simpl.
  - apply IH, IH, shr_1_nonneg, Hm.
  - apply IH, IH, Hm.
  - apply shr_1_nonneg, Hm.
Qed.

Lemma shr_fexp_nonneg (m e : Z) (l : location) :
  0 <= m -> 0 <= shr_m (fst (shr_fexp prec emax m e l)).
Proof.
  intros Hm. unfold shr_fexp, shr.
  assert (Hrec : 0 <= shr_m (shr_record_of_loc m l)).
  { destruct l as [|[]]; simpl; exact Hm. }
  destruct (fexp prec emax (Zdigits2 m + e) - e); simpl; try exact Hrec.
  now apply iter_shr_1_nonneg.
Qed.

Lemma round_nearest_even_nonneg (m : Z) (l : location) :
  0 <= m -> 0 <= round_nearest_even m l.
Proof.
  intros Hm. destruct l as [|[]]; simpl; try lia.
  destruct (Z.even m); lia.
Qed.

(** Rounding a mantissa that is not negative never yields NaN. *)
Lemma binary_round_aux_not_nan (sx : bool) (mx ex : Z) (lx : location) :
  0 <= mx -> binary_round_aux prec emax sx mx ex lx <> S754_nan.
Proof.
  intros Hm. unfold binary_round_aux.
  pose proof (shr_fexp_nonneg mx ex lx Hm) as H1.
  destruct (shr_fexp prec emax mx ex lx) as [mrs' e']. simpl in H1.
  pose proof (shr_fexp_nonneg (round_nearest_even (shr_m mrs') (loc_of_shr_record mrs')) e'
                loc_Exact (round_nearest_even_nonneg _ _ H1)) as H2.
  destruct (shr_fexp prec emax _ e' loc_Exact) as [mrs'' e'']. simpl in H2.
  destruct (shr_m mrs'') as [|p|p]; [discriminate| |lia].
  destruct (e'' <=? emax - prec); discriminate.
Qed.

Lemma binary_normalize_not_nan (m e : Z) (szero : bool) :
  binary_normalize prec emax m e szero <> S754_nan.
Proof.
  unfold binary_normalize, binary_round.
  destruct m as [|p|p]; [discriminate| |];
    destruct (shl_align _ _ _) as [mz ez]; apply binary_round_aux_not_nan; lia.
Qed.

End SpecFloatFacts.

Lemma SFmul_number (x : spec_float) (s : bool) (m : positive) (e : Z) :
  x <> S754_nan -> SF64mul x (S754_finite s m e) <> S754_nan.
Proof.
  intros Hx. unfold SF64mul, SFmul.
  destruct x as [sx|sx| |sx mx ex]; try discriminate; [contradiction|].
  apply binary_round_aux_not_nan. lia.
Qed.

Lemma SFsub_number (x y : spec_float) :
  is_bounded x -> y <> S754_nan -> SF64sub x y <> S754_nan.
Proof.
  intros Hx Hy. unfold SF64sub, SFsub.
  destruct x as [sx|sx| |sx mx ex]; try contradiction;
    destruct y as [sy|sy| |sy my ey]; try contradiction; try discriminate.
  - destruct sx, sy; discriminate.
  - apply binary_normalize_not_nan.
Qed.

Lemma SFcompare_antisym (x y : spec_float) :
  SFcompare y x = option_map CompOpp (SFcompare x y).
Proof.
  destruct x as [sx|sx| |sx mx ex], y as [sy|sy| |sy my ey]; simpl; try reflexivity;
    try (destruct sx; reflexivity); try (destruct sy; reflexivity);
    try (destruct sx, sy; reflexivity).
  destruct sx, sy; simpl; try reflexivity;
    rewrite (Z.compare_antisym ex ey); destruct (ex ?= ey); simpl; try reflexivity;
    rewrite (Pos.compare_cont_antisym mx my Eq); reflexivity.
Qed.

Module Float64Facts.

Local Open Scope float_scope.

Lemma is_nan_spec (x : float) : is_nan x = false <-> Prim2SF x <> S754_nan.
Proof.
  unfold is_nan. rewrite FloatAxioms.eqb_spec. unfold SFeqb.
  destruct (Prim2SF x) as [s|s| |s m e]; simpl.
  - split; [discriminate|reflexivity].
  - destruct s; (split; [discriminate|reflexivity]).
  - split; [discriminate|intros H; now elim H].
  - destruct s; rewrite Z.compare_refl, Pos.compare_cont_refl; simpl;
      (split; [discriminate|reflexivity]).
Qed.

Lemma ltb_leb (x y : float) : (x <? y) = true -> (x <=? y) = true.
Proof.
  rewrite ltb_spec, leb_spec. unfold SFltb, SFleb.
  destruct (SFcompare (Prim2SF x) (Prim2SF y)) as [[]|]; congruence.
Qed.

Lemma not_ltb_leb (x y : float) :
  is_nan x = false -> is_nan y = false -> (x <? y) = false -> (y <=? x) = true.
Proof.
  rewrite !is_nan_spec, ltb_spec, leb_spec. unfold SFltb, SFleb.
  rewrite (SFcompare_antisym (Prim2SF x) (Prim2SF y)).
  intros Hx Hy.
  destruct (SFcompare (Prim2SF x) (Prim2SF y)) as [[]|] eqn:Hc; simpl; try congruence.
  exfalso. destruct (Prim2SF x) as [sx|sx| |sx mx ex], (Prim2SF y) as [sy|sy| |sy my ey];
    simpl in Hc; try discriminate; try contradiction.
Qed.

Lemma truthy_number (x : float) : Float64.truthy x = true -> is_nan x = false.
Proof.
  unfold Float64.truthy. destruct (is_nan x); [|reflexivity].
  rewrite orb_true_r. discriminate.
Qed.

End Float64Facts.

(** ** Mouse look, in binary64 *)

Module LookFloat.

Import Float64Facts.
Local Open Scope float_scope.

Lemma in_range_bounded (p : float) : pitch_in_range64 p -> is_bounded (Prim2SF p).
Proof.
  intros [Hlow Hup]. rewrite leb_spec in Hlow, Hup.
  destruct (Prim2SF p) as [s|s| |s m e]; simpl; try exact I.
  - destruct s; [vm_compute in Hlow|vm_compute in Hup]; discriminate.
  - vm_compute in Hup. discriminate.
Qed.

(** The clamp of line 44 puts every number in the range. *)
Lemma clamp_in_range (t : float) :
  is_nan t = false ->
  pitch_in_range64 (Float64.Math_max pitch_lower (Float64.Math_min pitch_upper t)).
Proof.
  intros Ht. unfold Float64.Math_min.
  change (is_nan pitch_upper) with false. rewrite Ht. cbv [orb].
  destruct (pitch_upper <? t) eqn:Hut; [split; reflexivity|].
  assert (Hm : (if t <? pitch_upper then t else if get_sign pitch_upper then pitch_upper else t) = t).
  { destruct (t <? pitch_upper); reflexivity. }
  rewrite Hm.
  assert (Htu : (t <=? pitch_upper) = true) by (now apply not_ltb_leb).
  unfold Float64.Math_max.
  change (is_nan pitch_lower) with false. rewrite Ht. cbv [orb].
  destruct (pitch_lower <? t) eqn:Hlt; [split; [now apply ltb_leb|exact Htu]|].
  destruct (t <? pitch_lower) eqn:Htl; [split; reflexivity|].
  change (get_sign pitch_lower) with true. cbv iota.
  split; [now apply not_ltb_leb|exact Htu].
Qed.

(** What the handler clamps is a number: a movement that is NaN counts
    as 0, and a pitch in the range is finite. *)
Lemma look_step_number (p my : float) :
  pitch_in_range64 p -> is_nan (p - or_else my (of_Z 0) * lit 0.002) = false.
Proof.
  intros Hp. apply is_nan_spec. rewrite sub_spec, mul_spec.
  apply SFsub_number; [now apply in_range_bounded|].
  assert (Hk : exists s m e, Prim2SF (lit 0.002) = S754_finite s m e)
    by (vm_compute; eauto).
  destruct Hk as [s [m [e ->]]]. apply SFmul_number.
  apply is_nan_spec. unfold or_else.
  change (@truthy float Float64_Number) with Float64.truthy.
  destruct (Float64.truthy my) eqn:Hmy; [now apply truthy_number|reflexivity].
Qed.

Lemma onMouseMove_pitch (mx my : float) (g : Game float) :
  pitch (onMouseMove mx my g)
  = Float64.Math_max pitch_lower
      (Float64.Math_min pitch_upper (pitch g - or_else my (of_Z 0) * lit 0.002)).
Proof. reflexivity. Qed.

Lemma onMouseMove_in_range (mx my : float) (g : Game float) :
  pitch_in_range64 (pitch g) -> pitch_in_range64 (pitch (onMouseMove mx my g)).
Proof.
  intros Hg. rewrite onMouseMove_pitch. apply clamp_in_range.
  now apply look_step_number.
Qed.

Lemma handle_in_range (g : Game float) (e : Event float) :
  pitch_in_range64 (pitch g) -> pitch_in_range64 (pitch (handle g e)).
Proof.
  intros Hg. destruct e as [delta|code|code|locked|mx my]; unfold handle.
  - unfold pitch, animate.
    destruct (animate_ground_keeps (animate_move delta g)) as [-> _].
    destruct (animate_move_keeps delta g) as [_ [-> _]]. exact Hg.
  - unfold pitch. destruct (keydown_keeps code g) as [_ [-> _]]. exact Hg.
  - unfold pitch. destruct (keyup_keeps code g) as [_ [-> _]]. exact Hg.
  - unfold pitch. destruct (onPointerLockChange_keeps locked g) as [_ [-> _]]. exact Hg.
  - destruct (mouse_listener g); [now apply onMouseMove_in_range|exact Hg].
Qed.

(** C10: the pitch stays within [-PI/2, PI/2].  The handler takes a pitch
    of the range to a pitch of the range, whatever the two movements are
    (NaN and the infinities included); so every run of events from the
    initial state, where the pitch is 0, ends in the range.  The yaw takes
    the whole horizontal movement and is not clamped: one event of -10000
    puts it at 20. *)
Theorem pitch_stays_in_range :
  (forall mx my g,
      pitch_in_range64 (pitch g) -> pitch_in_range64 (pitch (onMouseMove mx my g))) /\
  (forall events, pitch_in_range64 (pitch (run events initial))) /\
  (forall mx my g, yaw (onMouseMove mx my g) = yaw g - or_else mx (of_Z 0) * lit 0.002) /\
  yaw (run [PointerLockChange true; MouseMove (-10000) 0] initial) = 20 /\
  (pitch_upper <? 20) = true.
Proof.
  split; [|split; [|split; [|split]]].
  - intros mx my g. apply onMouseMove_in_range.
  - intros events. unfold run.
    assert (Hinit : pitch_in_range64 (pitch (initial (num:=float)))) by (split; reflexivity).
    revert Hinit. generalize (initial (num:=float)) as g.
    induction events as [|e events IH]; intros g Hg; [exact Hg|].
    simpl. apply IH. now apply handle_in_range.
  - reflexivity.
  - reflexivity.
  - reflexivity.
Qed.

Lemma pitch_stays_in_range_witness :
  pitch_in_range64 (pitch (onMouseMove 10 2000 initial)).
Proof.
  apply (proj1 pitch_stays_in_range 10 2000 initial). split; reflexivity.
Defined.

End LookFloat.

(** ** The ground, in binary64 *)

Module GroundFloat.

Import Float64Facts.
Local Open Scope float_scope.

(** On the ground after the first frame of the scenario, the jump is
    there to take: Space adds 8 to a vertical velocity of 0. *)
Lemma jump_consumed_witness :
  velocity (keydown "Space" (animate 1 at_rest_forward)) = mkVector3 0 8 (-20) /\
  camera_position (keydown "Space" (animate 1 at_rest_forward)) = mkVector3 8 2 (-12) /\
  canJump (keydown "Space" (animate 1 at_rest_forward)) = false.
Proof.
  assert (Hground : canJump (animate (num:=float) 1 at_rest_forward) = true)
    by (vm_compute; reflexivity).
  pose proof (proj1 (jump_consumed (animate 1 at_rest_forward)) Hground) as Hjump.
  vm_compute in Hjump. vm_compute. exact Hjump.
Defined.

(** In binary64 too a frame never ends below the ground, whatever the
    state and the delta; its [position.y] is at least 2 unless it is NaN. *)
Lemma never_below_ground (delta : float) (g : Game float) :
  (vec_y (camera_position (animate delta g)) <? 2) = false /\
  (is_nan (vec_y (camera_position (animate delta g))) = false ->
   (2 <=? vec_y (camera_position (animate delta g))) = true).
Proof.
  assert (Hnot : (vec_y (camera_position (animate delta g)) <? 2) = false).
  { unfold animate. generalize (animate_move delta g) as moved. intros moved.
    unfold animate_ground.
    match goal with |- context [if ?c then _ else _] => destruct c eqn:Hlow end.
    - reflexivity.
    - exact Hlow. }
  split; [exact Hnot|].
  intros Hnum. now apply not_ltb_leb.
Qed.

Lemma never_below_ground_run (events : list (Event float)) :
  (vec_y (camera_position (run events initial)) <? 2) = false.
Proof.
  assert (Hinit : (vec_y (camera_position (initial (num:=float))) <? 2) = false)
    by reflexivity.
  revert Hinit. generalize (initial (num:=float)) as g.
  induction events as [|e events IH]; intros g Hg; [exact Hg|].
  change (run (e :: events) g) with (run events (handle g e)).
  apply IH. destruct e as [delta|code|code|locked|mx my]; unfold handle.
  - exact (proj1 (never_below_ground delta g)).
  - destruct (keydown_keeps code g) as [-> _]. exact Hg.
  - destruct (keyup_keeps code g) as [-> _]. exact Hg.
  - destruct (onPointerLockChange_keeps locked g) as [-> _]. exact Hg.
  - destruct (mouse_listener g); [|exact Hg].
    destruct (onMouseMove_keeps mx my g) as [-> _]. exact Hg.
Qed.

End GroundFloat.

(** ** The ground and the pitch, in exact arithmetic *)

Module MovementReal.

Local Open Scope R_scope.

Lemma ltb_lt (a b : R) : (a <? b)%num = true <-> a < b.
Proof.
  change ((a <? b)%num) with (Real.ltb a b). unfold Real.ltb.
  destruct (Rlt_dec a b); split; intros H; try reflexivity; try assumption;
    try discriminate; contradiction.
Qed.

Lemma or_else_zero (a : R) : or_else a (of_Z 0) = a.
Proof.
  unfold or_else. change (truthy a) with (Real.truthy a). unfold Real.truthy.
  destruct (Req_dec_T a 0) as [->|_]; reflexivity.
Qed.

(** In exact arithmetic [normalize] divides by the length, where that is
    not zero. *)
Lemma normalize_real (v : Vector3 R) :
  normalize v
  = if truthy (length3 v)
    then mkVector3 (vec_x v / length3 v) (vec_y v / length3 v) (vec_z v / length3 v)
    else v.
Proof.
  unfold normalize, normalize_divisor, or_else, divideScalar, multiplyScalar.
  change (truthy (length3 v)) with (Real.truthy (length3 v)). unfold Real.truthy.
  destruct (Req_dec_T (length3 v) 0) as [Hz|Hnz].
  - destruct v as [x y z]. simpl. f_equal; lra.
  - simpl. f_equal; field; exact Hnz.
Qed.

Lemma frame_formulas_real (dt : R) (g : Game R) :
  vec_y (direction g) = 0 ->
  velocity (animate_move dt g) = spec_velocity dt g /\
  camera_position (animate_move dt g) = spec_position dt g.
Proof.
  intros Hdy. destruct (animate_move_formulas dt g) as [_ [Hv Hp]].
  assert (Hdir : frame_direction g
                 = spec_direction (moveForward g) (moveBackward g) (moveLeft g) (moveRight g)).
  { unfold frame_direction, spec_direction. rewrite Hdy. apply normalize_real. }
  rewrite Hdir in Hv, Hp. split; assumption.
Qed.

Lemma animate_ground_floor (g : Game R) :
  2 <= vec_y (camera_position (animate_ground g)).
Proof.
  unfold animate_ground.
  destruct (vec_y (camera_position g) <? of_Z 2)%num eqn:Hlow.
  - simpl. lra.
  - destruct (Rlt_dec (vec_y (camera_position g)) 2) as [Hlt|Hge].
    + apply ltb_lt in Hlt. change (of_Z 2) with 2 in Hlow. congruence.
    + lra.
Qed.

Lemma handle_floor (g : Game R) (e : Event R) :
  2 <= vec_y (camera_position g) -> 2 <= vec_y (camera_position (handle g e)).
Proof.
  intros Hg. destruct e as [delta|code|code|locked|mx my]; unfold handle.
  - apply animate_ground_floor.
  - now destruct (keydown_keeps code g) as [-> _].
  - now destruct (keyup_keeps code g) as [-> _].
  - now destruct (onPointerLockChange_keeps locked g) as [-> _].
  - destruct (mouse_listener g); [|exact Hg].
    now destruct (onMouseMove_keeps mx my g) as [-> _].
Qed.

Lemma run_floor (events : list (Event R)) (g : Game R) :
  2 <= vec_y (camera_position g) -> 2 <= vec_y (camera_position (run events g)).
Proof.
  revert g. induction events as [|e events IH]; intros g Hg; [exact Hg|].
  change (run (e :: events) g) with (run events (handle g e)).
  apply IH. now apply handle_floor.
Qed.

(** In exact arithmetic a frame ends on or above the ground, from any
    state and for any delta; so does a run from the initial state. *)
Lemma ground_floor_real :
  (forall delta g, 2 <= vec_y (camera_position (animate (num:=R) delta g))) /\
  (forall events, 2 <= vec_y (camera_position (run (num:=R) events initial))) /\
  (forall delta g,
      vec_y (camera_position g) + (vec_y (velocity g) - 9.8 * delta) * delta < 2 ->
      (vec_y (camera_position (animate_move delta g)) <? of_Z 2)%num = true).
Proof.
  split; [|split].
  - intros delta g. apply animate_ground_floor.
  - intros events. apply run_floor. simpl. lra.
  - intros delta g Hlow. apply ltb_lt.
    rewrite animate_move_position_y. unfold lit. simpl. lra.
Qed.

(** *** Mouse look *)

Lemma onMouseMove_pitch_real (mx my : R) (g : Game R) :
  pitch (onMouseMove mx my g) = Rmax (- PI / 2) (Rmin (PI / 2) (pitch g - my * 0.002)).
Proof.
  unfold onMouseMove, pitch. rewrite !or_else_zero. simpl.
  unfold lit. simpl. do 2 f_equal; lra.
Qed.

Lemma onMouseMove_yaw_real (mx my : R) (g : Game R) :
  yaw (onMouseMove mx my g) = yaw g - mx * 0.002.
Proof.
  unfold onMouseMove, yaw. rewrite !or_else_zero. simpl.
  unfold lit. simpl. lra.
Qed.

Lemma onMouseMove_in_range_real (mx my : R) (g : Game R) :
  pitch_in_range (onMouseMove mx my g).
Proof.
  unfold pitch_in_range. rewrite onMouseMove_pitch_real.
  pose proof PI_RGT_0 as Hpi. split.
  - apply Rmax_l.
  - apply Rmax_lub; [lra|apply Rmin_l].
Qed.

Lemma handle_in_range_real (g : Game R) (e : Event R) :
  pitch_in_range g -> pitch_in_range (handle g e).
Proof.
  intros Hg. destruct e as [delta|code|code|locked|mx my]; unfold handle.
  - unfold pitch_in_range, pitch, animate.
    destruct (animate_ground_keeps (animate_move delta g)) as [-> _].
    destruct (animate_move_keeps delta g) as [_ [-> _]]. exact Hg.
  - unfold pitch_in_range, pitch.
    destruct (keydown_keeps code g) as [_ [-> _]]. exact Hg.
  - unfold pitch_in_range, pitch.
    destruct (keyup_keeps code g) as [_ [-> _]]. exact Hg.
  - unfold pitch_in_range, pitch.
    destruct (onPointerLockChange_keeps locked g) as [_ [-> _]]. exact Hg.
  - destruct (mouse_listener g); [apply onMouseMove_in_range_real|exact Hg].
Qed.

(** C10: the pitch stays in [-PI/2, PI/2].  It is there after the
    handler has run on any look event from any state, hence after every
    run of events from the initial state; the yaw takes the whole of
    every horizontal delta, and passes any bound. *)
Theorem pitch_clamped_yaw_free :
  (forall mx my g, - PI / 2 <= pitch (onMouseMove mx my g) <= PI / 2) /\
  (forall events, - PI / 2 <= pitch (run events initial) <= PI / 2) /\
  (forall mx my g, yaw (onMouseMove mx my g) = yaw g - mx * 0.002) /\
  (forall bound g, exists mx, bound < yaw (handle (onPointerLockChange true g)
                                                   (MouseMove mx 0))).
Proof.
  split; [|split; [|split]].
  - intros mx my g. apply onMouseMove_in_range_real.
  - intros events. unfold run.
    assert (Hinit : pitch_in_range (initial (num:=R))).
    { unfold pitch_in_range, pitch. simpl. pose proof PI_RGT_0. lra. }
    revert Hinit. generalize (initial (num:=R)) as g.
    induction events as [|e events IH]; intros g Hg; [exact Hg|].
    simpl. apply IH. now apply handle_in_range_real.
  - intros mx my g. apply onMouseMove_yaw_real.
  - intros bound g. exists ((yaw g - bound - 1) / 0.002).
    unfold handle, onPointerLockChange.
    change (mouse_listener (set_mouse_listener true g)) with true. cbv iota.
    rewrite onMouseMove_yaw_real.
    change (yaw (set_mouse_listener true g)) with (yaw g). lra.
Qed.

End MovementReal.

(** ** The ground *)

(** C3: the ground is a floor.  In any arithmetic, a frame whose
    integration takes [position.y] below 2 ends with [position.y] exactly
    2, [velocity.y] exactly 0 and the jump available.  In exact arithmetic
    [position.y >= 2] after every frame, from any state and for any delta,
    hence in every state a run reaches from the initial one; and the
    integration goes below 2 exactly where the formula of the frame does.
    In binary64 no frame and no run ends below 2, and [position.y >= 2]
    after a frame unless it is NaN. *)
Theorem ground_is_a_floor :
  (forall num (N : Number num) (delta : num) (g : Game num),
      (vec_y (camera_position (animate_move delta g)) <? of_Z 2)%num = true ->
      vec_y (camera_position (animate delta g)) = of_Z 2 /\
      vec_y (velocity (animate delta g)) = of_Z 0 /\
      canJump (animate delta g) = true) /\
  ((forall delta g, (2 <= vec_y (camera_position (animate (num:=R) delta g)))%R) /\
   (forall events, (2 <= vec_y (camera_position (run (num:=R) events initial)))%R) /\
   (forall delta g,
       (vec_y (camera_position g) + (vec_y (velocity g) - 9.8 * delta) * delta < 2)%R ->
       (vec_y (camera_position (animate_move delta g)) <? of_Z 2)%num = true)) /\
  ((forall delta g,
       PrimFloat.ltb (vec_y (camera_position (animate delta g))) 2 = false /\
       (PrimFloat.is_nan (vec_y (camera_position (animate delta g))) = false ->
        PrimFloat.leb 2 (vec_y (camera_position (animate delta g))) = true)) /\
   (forall events,
       PrimFloat.ltb (vec_y (camera_position (run events initial))) 2 = false)).
Proof.
  split; [|split; [|split]].
  - intros num N delta g. apply ground_clamp.
  - exact MovementReal.ground_floor_real.
  - exact GroundFloat.never_below_ground.
  - exact GroundFloat.never_below_ground_run.
Qed.

(** A long first frame, in exact arithmetic: two seconds of fall from
    (8, 10, 8) end on the ground. *)
Lemma ground_is_a_floor_witness :
  vec_y (camera_position (animate 2%R initial)) = 2%R /\
  vec_y (velocity (animate 2%R initial)) = 0%R /\
  canJump (animate 2%R initial) = true.
Proof.
  destruct ground_is_a_floor as [Hclamp [[_ [_ Hbelow]] _]].
  apply (Hclamp R Real_Number 2%R initial).
  apply (Hbelow 2%R initial). simpl. lra.
Defined.

(** * Part IV: further properties of the controls, the scene and the hotbar *)

(** ** Keys, pointer lock and frames, in any arithmetic *)

Section ControlsExtra.

Context {num : Type} {N : Number num}.
Local Open Scope num_scope.

Lemma animate_ground_flags (g : Game num) :
  moveForward (animate_ground g) = moveForward g /\
  moveBackward (animate_ground g) = moveBackward g /\
  moveLeft (animate_ground g) = moveLeft g /\
  moveRight (animate_ground g) = moveRight g.
Proof.
  unfold animate_ground.
  destruct (vec_y (camera_position g) <? of_Z 2); repeat split.
Qed.

Lemma keydown_flags (code : string) (g : Game num) :
  moveForward (keydown code g) = (if String.eqb code "KeyW" then true else moveForward g) /\
  moveBackward (keydown code g) = (if String.eqb code "KeyS" then true else moveBackward g) /\
  moveLeft (keydown code g) = (if String.eqb code "KeyA" then true else moveLeft g) /\
  moveRight (keydown code g) = (if String.eqb code "KeyD" then true else moveRight g).
Proof.
  unfold keydown.
  destruct (String.eqb_spec code "KeyW") as [->|_]; [repeat split|].
  destruct (String.eqb_spec code "KeyS") as [->|_]; [repeat split|].
  destruct (String.eqb_spec code "KeyA") as [->|_]; [repeat split|].
  destruct (String.eqb_spec code "KeyD") as [->|_]; [repeat split|].
  destruct (String.eqb code "Space"); [|repeat split].
  destruct (canJump g); repeat split.
Qed.

Lemma keyup_flags (code : string) (g : Game num) :
  moveForward (keyup code g) = (if String.eqb code "KeyW" then false else moveForward g) /\
  moveBackward (keyup code g) = (if String.eqb code "KeyS" then false else moveBackward g) /\
  moveLeft (keyup code g) = (if String.eqb code "KeyA" then false else moveLeft g) /\
  moveRight (keyup code g) = (if String.eqb code "KeyD" then false else moveRight g).
Proof.
  unfold keyup.
  destruct (String.eqb_spec code "KeyW") as [->|_]; [repeat split|].
  destruct (String.eqb_spec code "KeyS") as [->|_]; [repeat split|].
  destruct (String.eqb_spec code "KeyA") as [->|_]; [repeat split|].
  destruct (String.eqb_spec code "KeyD") as [->|_]; repeat split.
Qed.

Lemma handle_flags (g : Game num) (e : Event num) :
  moveForward (handle g e) = held "KeyW" [e] (moveForward g) /\
  moveBackward (handle g e) = held "KeyS" [e] (moveBackward g) /\
  moveLeft (handle g e) = held "KeyA" [e] (moveLeft g) /\
  moveRight (handle g e) = held "KeyD" [e] (moveRight g).
Proof.
  destruct e as [delta|code|code|locked|mx my]; unfold handle, held.
  - unfold animate.
    destruct (animate_ground_flags (animate_move delta g)) as [-> [-> [-> ->]]].
    destruct (animate_move_keeps delta g) as [_ [_ [_ [-> [-> [-> ->]]]]]].
    repeat split.
  - apply keydown_flags.
  - apply keyup_flags.
  - destruct locked; repeat split.
  - destruct (mouse_listener g); repeat split.
Qed.

Lemma held_cons (code : string) (e : Event num) (events : list (Event num)) (before : bool) :
  held code (e :: events) before = held code events (held code [e] before).
Proof. destruct e; reflexivity. Qed.

(** X1: the four movement flags mirror the keyboard.  After any
    sequence of events each flag says whether the last [keydown] or
    [keyup] of its own key (KeyW, KeyS, KeyA, KeyD) was a [keydown];
    frames, mouse events, pointer-lock changes and every other key,
    Space included, leave it as it was. *)
Theorem flags_follow_keys (events : list (Event num)) (g : Game num) :
  moveForward (run events g) = held "KeyW" events (moveForward g) /\
  moveBackward (run events g) = held "KeyS" events (moveBackward g) /\
  moveLeft (run events g) = held "KeyA" events (moveLeft g) /\
  moveRight (run events g) = held "KeyD" events (moveRight g).
Proof.
  revert g. induction events as [|e events IH]; intros g; [repeat split|].
  change (run (e :: events) g) with (run events (handle g e)).
  rewrite !(held_cons _ e events).
  destruct (handle_flags g e) as [<- [<- [<- <-]]]. apply IH.
Qed.

(** X2: a key event repeated with nothing between changes nothing.  A
    second [keydown] of the same key right after the first leaves the
    state of the first, so a Space key that repeats before the next frame
    adds no second jump; a second [keyup] changes nothing; releasing a key
    other than Space undoes its press.  The handler does not look at
    [e.repeat]: a Space key that repeats after a landing jumps again, as
    in the binary64 run where each of three Space keys, a landing before
    each, leaves a vertical velocity of 8. *)
Theorem keydown_repeats :
  (forall code (g : Game num), keydown code (keydown code g) = keydown code g) /\
  (forall code (g : Game num), keyup code (keyup code g) = keyup code g) /\
  (forall code (g : Game num),
      code <> "Space"%string -> keyup code (keydown code g) = keyup code g) /\
  (vec_y (velocity (run [Frame 2%float; KeyDown "Space"] initial)) = 8%float /\
   vec_y (velocity (run [Frame 2%float; KeyDown "Space"; Frame 1%float; KeyDown "Space"]
                        initial)) = 8%float /\
   vec_y (velocity (run [Frame 2%float; KeyDown "Space"; Frame 1%float; KeyDown "Space";
                         Frame 1%float; KeyDown "Space"] initial)) = 8%float).
Proof.
  unfold keydown, keyup. split; [|split; [|split]].
  - intros code g.
    destruct (String.eqb_spec code "KeyW") as [->|_]; [reflexivity|].
    destruct (String.eqb_spec code "KeyS") as [->|_]; [reflexivity|].
    destruct (String.eqb_spec code "KeyA") as [->|_]; [reflexivity|].
    destruct (String.eqb_spec code "KeyD") as [->|_]; [reflexivity|].
    destruct (String.eqb code "Space"); [|reflexivity].
    destruct (canJump g); reflexivity.
  - intros code g.
    destruct (String.eqb_spec code "KeyW") as [->|_]; [reflexivity|].
    destruct (String.eqb_spec code "KeyS") as [->|_]; [reflexivity|].
    destruct (String.eqb_spec code "KeyA") as [->|_]; [reflexivity|].
    destruct (String.eqb_spec code "KeyD") as [->|_]; reflexivity.
  - intros code g Hspace.
    destruct (String.eqb_spec code "KeyW") as [->|_]; [reflexivity|].
    destruct (String.eqb_spec code "KeyS") as [->|_]; [reflexivity|].
    destruct (String.eqb_spec code "KeyA") as [->|_]; [reflexivity|].
    destruct (String.eqb_spec code "KeyD") as [->|_]; [reflexivity|].
    destruct (String.eqb_spec code "Space") as [->|_]; [now elim Hspace|reflexivity].
  - repeat split.
Qed.

Lemma handle_unlocked (g : Game num) (e : Event num) :
  mouse_listener g = false -> locks e = false ->
  camera_rotation (handle g e) = camera_rotation g /\ mouse_listener (handle g e) = false.
Proof.
  intros Hg He. destruct e as [delta|code|code|locked|mx my]; unfold handle.
  - unfold animate.
    destruct (animate_ground_keeps (animate_move delta g)) as [-> [_ ->]].
    destruct (animate_move_keeps delta g) as [_ [-> [-> _]]]. auto.
  - destruct (keydown_keeps code g) as [_ [-> [_ ->]]]. auto.
  - destruct (keyup_keeps code g) as [_ [-> [_ ->]]]. auto.
  - destruct locked; [discriminate|]. auto.
  - rewrite Hg. auto.
Qed.

(** X3: the mouse turns the camera only under pointer lock.  While
    the listener is not registered, and through any events that do not
    lock the pointer, the camera's rotation stays what it was; so it does
    from the moment the lock is lost. *)
Theorem look_needs_pointer_lock (events : list (Event num)) (g : Game num) :
  forallb (fun e => negb (locks e)) events = true ->
  (mouse_listener g = false ->
     camera_rotation (run events g) = camera_rotation g) /\
  camera_rotation (run events (handle g (PointerLockChange false))) = camera_rotation g.
Proof.
  intros Hev.
  assert (Hgen : forall g', mouse_listener g' = false ->
            camera_rotation (run events g') = camera_rotation g').
  { clear g. induction events as [|e events IH]; intros g Hg; [reflexivity|].
    simpl in Hev. apply andb_true_iff in Hev. destruct Hev as [He Hev].
    apply negb_true_iff in He.
    change (run (e :: events) g) with (run events (handle g e)).
    destruct (handle_unlocked g e Hg He) as [Hrot Hml].
    rewrite (IH Hev _ Hml). exact Hrot. }
  split; [apply Hgen|].
  rewrite Hgen; reflexivity.
Qed.

(** X4: looking and moving do not interact.  A frame reads neither
    angle of the camera, and a mouse move touches nothing a frame reads:
    the two commute, so the keys move the camera along the axes of the
    world whatever the yaw is. *)
Theorem look_and_move_commute (delta mx my : num) (g : Game num) :
  animate delta (onMouseMove mx my g) = onMouseMove mx my (animate delta g) /\
  handle (handle g (MouseMove mx my)) (Frame delta)
  = handle (handle g (Frame delta)) (MouseMove mx my).
Proof.
  assert (Hmove : forall g, animate_move delta (onMouseMove mx my g)
                            = onMouseMove mx my (animate_move delta g)).
  { intros [p r f b l ri cj v d ml]. destruct f, b, l, ri; reflexivity. }
  assert (Hground : forall g, animate_ground (onMouseMove mx my g)
                              = onMouseMove mx my (animate_ground g)).
  { intros g'. unfold animate_ground.
    change (camera_position (onMouseMove mx my g')) with (camera_position g').
    destruct (vec_y (camera_position g') <? of_Z 2); reflexivity. }
  assert (H : animate delta (onMouseMove mx my g) = onMouseMove mx my (animate delta g)).
  { unfold animate. rewrite Hmove. apply Hground. }
  split; [exact H|].
  unfold handle.
  unfold animate at 2.
  destruct (animate_ground_keeps (animate_move delta g)) as [_ [_ ->]].
  destruct (animate_move_keeps delta g) as [_ [_ [-> _]]].
  destruct (mouse_listener g); [exact H|reflexivity].
Qed.

End ControlsExtra.

Lemma look_needs_pointer_lock_witness :
  camera_rotation (run [MouseMove 40%R 2%R; KeyDown "KeyW"; Frame 1%R] initial)
  = camera_rotation (initial (num:=R)).
Proof.
  exact (proj1 (look_needs_pointer_lock
                  [MouseMove 40%R 2%R; KeyDown "KeyW"; Frame 1%R] initial eq_refl) eq_refl).
Defined.

(** ** The order of the scene *)

Lemma nth_error_flat_map_block {A B} (f : A -> list B) (n : nat) (l : list A) (i j : nat) (a : A) :
  (forall b, In b l -> List.length (f b) = n) ->
  nth_error l i = Some a -> (j < n)%nat ->
  nth_error (flat_map f l) (i * n + j) = nth_error (f a) j.
Proof.
  revert i. induction l as [|h l IH]; intros i Hlen Hi Hj.
  - destruct i; discriminate.
  - simpl. destruct i as [|i]; simpl in Hi.
    + injection Hi as ->. simpl. rewrite nth_error_app1; [reflexivity|].
      rewrite (Hlen a); [exact Hj|now left].
    + rewrite nth_error_app2 by (rewrite (Hlen h) by (now left); simpl; lia).
      rewrite (Hlen h) by (now left).
      replace (Datatypes.S i * n + j - n)%nat with (i * n + j)%nat by (simpl; lia).
      apply IH; [|exact Hi|exact Hj]. intros b Hb. apply Hlen. now right.
Qed.

Lemma flat_map_length_block {A B} (f : A -> list B) (n : nat) (l : list A) :
  (forall b, In b l -> List.length (f b) = n) ->
  List.length (flat_map f l) = (List.length l * n)%nat.
Proof.
  induction l as [|h l IH]; intros Hlen; [reflexivity|].
  simpl. rewrite length_app, (Hlen h) by (now left).
  rewrite IH; [reflexivity|]. intros b Hb. apply Hlen. now right.
Qed.

Lemma counter_values_nth (hi i : Z) :
  0 <= i < hi -> nth_error (counter_values 0 hi 1) (Z.to_nat i) = Some i.
Proof.
  intros Hi. unfold counter_values.
  rewrite nth_error_map, nth_error_seq.
  replace ((hi - 0 + 1 - 1) / 1) with hi by (rewrite Z.div_1_r; lia).
  destruct (Nat.ltb_spec (Z.to_nat i) (Z.to_nat hi)) as [_|Hge]; [|lia].
  simpl. f_equal. lia.
Qed.

Lemma counter_values_length (hi : Z) :
  List.length (counter_values 0 hi 1) = Z.to_nat hi.
Proof.
  unfold counter_values. rewrite length_map, length_seq.
  f_equal. rewrite Z.div_1_r. lia.
Qed.

Section SceneOrder.

Context {num : Type} {N : Number num}.

Lemma visit_one (x z y : Z) :
  In y (counter_values 0 8 1) -> visit (num:=num) x z y = [cube (blockIdAt y) x y z].
Proof.
  intros Hy. apply counter_values_unit in Hy. unfold visit, blockIdAt.
  destruct (Z.eqb_spec y 0); [reflexivity|].
  destruct (Z.ltb_spec y 4); [reflexivity|].
  destruct (Z.ltb_spec y 8); [reflexivity|lia].
Qed.

Lemma column_length (x z : Z) :
  List.length (flat_map (visit (num:=num) x z) (counter_values 0 8 1)) = 8%nat.
Proof.
  rewrite (flat_map_length_block _ 1).
  - now rewrite counter_values_length.
  - intros y Hy. now rewrite visit_one.
Qed.

Lemma slice_length (x : Z) :
  List.length
    (flat_map (fun z => flat_map (visit (num:=num) x z) (counter_values 0 8 1))
              (counter_values 0 CHUNK_SIZE 1)) = 128%nat.
Proof.
  rewrite (flat_map_length_block _ 8).
  - now rewrite counter_values_length.
  - intros z _. apply column_length.
Qed.

(** X5: the loops add the cubes in the order [x], then [z], then [y],
    behind whatever the scene held.  Whatever the arithmetic, the loops
    end without a throw; the scene grows by 2048 cubes, its earlier
    children staying where they were; and the cube of the voxel
    [(x, y, z)] is the child number [128 * x + 8 * z + y] among the new
    ones. *)
Theorem scene_order (scene : Scene num) (x y z : Z) :
  in_extent x y z ->
  exists scene',
    world_loop scene = Return scene' /\
    List.length scene' = (List.length scene + 2048)%nat /\
    (forall k, (k < List.length scene)%nat -> nth_error scene' k = nth_error scene k) /\
    nth_error scene' (List.length scene + Z.to_nat (128 * x + 8 * z + y))
    = Some (cube (blockIdAt y) x y z).
Proof.
  intros [Hx [Hy Hz]]. unfold CHUNK_SIZE, WORLD_HEIGHT in *.
  exists (scene ++ world_cubes). split; [apply world_loop_emits|].
  assert (Hlen : List.length (world_cubes (num:=num)) = 2048%nat).
  { unfold world_cubes. rewrite (flat_map_length_block _ 128).
    - now rewrite counter_values_length.
    - intros x' _. apply slice_length. }
  split; [rewrite length_app, Hlen; reflexivity|].
  split; [intros k Hk; now apply nth_error_app1|].
  rewrite nth_error_app2 by lia.
  replace (List.length scene + Z.to_nat (128 * x + 8 * z + y) - List.length scene)%nat
    with (Z.to_nat x * 128 + (Z.to_nat z * 8 + (Z.to_nat y * 1 + 0)))%nat by lia.
  unfold world_cubes.
  rewrite (nth_error_flat_map_block _ 128 _ _ _ x);
    [|intros x' _; apply slice_length|apply counter_values_nth; unfold CHUNK_SIZE; lia|lia].
  rewrite (nth_error_flat_map_block _ 8 _ _ _ z);
    [|intros z' _; apply column_length|apply counter_values_nth; unfold CHUNK_SIZE; lia|lia].
  rewrite (nth_error_flat_map_block _ 1 _ _ _ y);
    [|intros y' Hy'; now rewrite visit_one|apply counter_values_nth; lia|lia].
  rewrite visit_one by (apply counter_values_unit; lia). reflexivity.
Qed.

End SceneOrder.

(** The cube of the voxel (3, 5, 2) is child 405 of the scene. *)
Lemma scene_order_witness :
  exists scene',
    world_loop (num:=float) [] = Return scene' /\
    List.length scene' = 2048%nat /\
    (forall k, (k < 0)%nat -> nth_error scene' k = nth_error [] k) /\
    nth_error scene' 405 = Some (cube 3 3 5 2).
Proof.
  apply (scene_order (num:=float) [] 3 5 2).
  unfold in_extent, CHUNK_SIZE, WORLD_HEIGHT. lia.
Defined.

(** ** The hotbar *)

Lemma store_length {A} (i : nat) (a : A) (l : list A) :
  List.length (store i a l) = List.length l.
Proof.
  revert i. induction l as [|h l IH]; intros i; [destruct i; reflexivity|].
  destruct i; simpl; [reflexivity|]. now rewrite IH.
Qed.

Lemma store_nth_same {A} (i : nat) (a b : A) (l : list A) :
  nth_error l i = Some b -> nth_error (store i a l) i = Some a.
Proof.
  revert i. induction l as [|h l IH]; intros i Hi; [destruct i; discriminate|].
  destruct i; simpl; [reflexivity|]. now apply IH.
Qed.

Lemma store_nth_other {A} (i k : nat) (a : A) (l : list A) :
  k <> i -> nth_error (store i a l) k = nth_error l k.
Proof.
  revert i k. induction l as [|h l IH]; intros i k Hk; [destruct i; reflexivity|].
  destruct i, k; simpl; try reflexivity; [now elim Hk|].
  apply IH. lia.
Qed.

Lemma contains_app (token : string) (a b : list string) :
  contains token (a ++ b) = contains token a || contains token b.
Proof. unfold contains. apply existsb_app. Qed.

Lemma contains_remove (token t : string) (classes : list string) :
  contains t (classList_remove token classes)
  = negb (String.eqb token t) && contains t classes.
Proof.
  unfold contains, classList_remove.
  induction classes as [|c classes IH]; simpl; [now rewrite andb_false_r|].
  destruct (String.eqb_spec token c) as [<-|Hne]; simpl.
  - rewrite IH. destruct (String.eqb_spec t token) as [->|Hne'].
    + now rewrite String.eqb_refl.
    + reflexivity.
  - rewrite IH. destruct (String.eqb_spec t c) as [->|Hne'].
    + destruct (String.eqb_spec token c); [contradiction|reflexivity].
    + reflexivity.
Qed.

Lemma contains_add (token t : string) (classes : list string) :
  contains t (classList_add token classes)
  = String.eqb t token || contains t classes.
Proof.
  unfold classList_add. destruct (contains token classes) eqn:Hc.
  - destruct (String.eqb_spec t token) as [->|_]; [now rewrite Hc|reflexivity].
  - rewrite contains_app. simpl. rewrite orb_false_r. apply orb_comm.
Qed.

Section HotbarProperties.

Context {num : Type}.
Variable Number_of_attribute : option string -> num.

(** X6: a click in the hotbar selects one block.  A click on an
    element without the class [block] changes nothing.  A click on a
    block makes [selectedBlock] the [Number] of its [data-block]
    attribute, and of all the elements with the class [block] it leaves
    the class [selected] on the clicked one and on no other; no element
    gains or loses any other class, and elements that are not blocks are
    not touched. *)
Theorem hotbar_selects_one (target : nat) (page : Page num) (e_target : Element) :
  nth_error (elements page) target = Some e_target ->
  (contains "block" (classList e_target) = false ->
     hotbar_click Number_of_attribute target page = page) /\
  (contains "block" (classList e_target) = true ->
     let page' := hotbar_click Number_of_attribute target page in
     selectedBlock page' = Number_of_attribute (dataset_block e_target) /\
     List.length (elements page') = List.length (elements page) /\
     forall k el, nth_error (elements page) k = Some el ->
       exists el',
         nth_error (elements page') k = Some el' /\
         dataset_block el' = dataset_block el /\
         (forall token, token <> "selected"%string ->
            contains token (classList el') = contains token (classList el)) /\
         (contains "block" (classList el) = true ->
            (contains "selected" (classList el') = true <-> k = target)) /\
         (contains "block" (classList el) = false -> el' = el)).
Proof.
  intros Htarget. unfold hotbar_click. rewrite Htarget.
  split; [intros ->; reflexivity|].
  intros Hblock. rewrite Hblock.
  set (unselect := fun b : Element =>
         if contains "block" (classList b)
         then set_classList (classList_remove "selected" (classList b)) b
         else b).
  assert (Hun : nth_error (map unselect (elements page)) target = Some (unselect e_target)).
  { rewrite nth_error_map, Htarget. reflexivity. }
  rewrite Hun. cbn [selectedBlock elements].
  split; [reflexivity|]. split; [now rewrite store_length, length_map|].
  intros k el Hk.
  assert (Hk' : nth_error (map unselect (elements page)) k = Some (unselect el)).
  { rewrite nth_error_map, Hk. reflexivity. }
  destruct (Nat.eq_dec k target) as [->|Hne].
  - assert (el = e_target) by congruence. subst el.
    eexists. split; [apply (store_nth_same _ _ _ _ Hun)|].
    unfold unselect. rewrite Hblock. cbn [set_classList classList dataset_block].
    split; [reflexivity|]. split; [|split].
    + intros token Htoken. rewrite contains_add, contains_remove.
      destruct (String.eqb_spec token "selected"); [contradiction|].
      destruct (String.eqb_spec "selected" token); [now subst|reflexivity].
    + intros _. rewrite contains_add. simpl. tauto.
    + congruence.
  - exists (unselect el). split; [now rewrite store_nth_other|].
    unfold unselect. destruct (contains "block" (classList el)) eqn:Hb;
      cbn [set_classList classList dataset_block].
    + split; [reflexivity|]. split; [|split].
      * intros token Htoken. rewrite contains_remove.
        destruct (String.eqb_spec "selected" token); [now subst|reflexivity].
      * intros _. rewrite contains_remove. simpl. split; [discriminate|contradiction].
      * discriminate.
    + split; [reflexivity|]. split; [reflexivity|]. split; [discriminate|reflexivity].
Qed.

End HotbarProperties.

(** Two blocks, the first selected; a click on the second. *)
Lemma hotbar_selects_one_witness :
  selectedBlock
    (hotbar_click (fun v => match v with Some _ => Float64.of_Z 2 | None => PrimFloat.nan end)
       1 (mkPage [mkElement ["block"; "selected"]%string (Some "1"%string);
                  mkElement ["block"]%string (Some "2"%string)]
                 (Float64.of_Z 1)))
  = Float64.of_Z 2.
Proof.
  pose proof (hotbar_selects_one
                (fun v => match v with Some _ => Float64.of_Z 2 | None => PrimFloat.nan end)
                1 (mkPage [mkElement ["block"; "selected"]%string (Some "1"%string);
                           mkElement ["block"]%string (Some "2"%string)]
                          (Float64.of_Z 1))
                (mkElement ["block"]%string (Some "2"%string)) eq_refl)
    as [_ Hclick].
  exact (proj1 (Hclick eq_refl)).
Defined.

(** ** The jump, in exact arithmetic *)

Module JumpReal.

Import MovementReal.
Local Open Scope R_scope.

Lemma handle_at_rest (g : Game R) (e : Event R) :
  (canJump g = true -> vec_y (camera_position g) = 2 /\ vec_y (velocity g) = 0) ->
  canJump (handle g e) = true ->
  vec_y (camera_position (handle g e)) = 2 /\ vec_y (velocity (handle g e)) = 0.
Proof.
  intros Hg. destruct e as [delta|code|code|locked|mx my]; unfold handle.
  - unfold animate, animate_ground.
    destruct (vec_y (camera_position (animate_move delta g)) <? of_Z 2)%num eqn:Hlow.
    + intros _. split; reflexivity.
    + destruct (animate_move_keeps delta g) as [-> _]. intros Hjump.
      destruct (Hg Hjump) as [Hp Hv].
      assert (Hnot : ~ vec_y (camera_position (animate_move delta g)) < 2).
      { intros Hlt. apply ltb_lt in Hlt. change (of_Z 2)%num with 2 in Hlow. congruence. }
      rewrite animate_move_position_y in *. rewrite animate_move_velocity_y.
      rewrite Hp, Hv in *. unfold lit in *. simpl in *.
      assert (Hd : delta = 0).
      { destruct (Req_dec delta 0) as [Hz|Hnz]; [exact Hz|].
        exfalso. apply Hnot. assert (0 < delta * delta) by nra. lra. }
      subst delta. split; lra.
  - unfold keydown.
    destruct (String.eqb code "KeyW"); [exact Hg|].
    destruct (String.eqb code "KeyS"); [exact Hg|].
    destruct (String.eqb code "KeyA"); [exact Hg|].
    destruct (String.eqb code "KeyD"); [exact Hg|].
    destruct (String.eqb code "Space"); [|exact Hg].
    simpl. discriminate.
  - unfold keyup.
    destruct (String.eqb code "KeyW"); [exact Hg|].
    destruct (String.eqb code "KeyS"); [exact Hg|].
    destruct (String.eqb code "KeyA"); [exact Hg|].
    destruct (String.eqb code "KeyD"); exact Hg.
  - destruct locked; exact Hg.
  - destruct (mouse_listener g); exact Hg.
Qed.

Lemma run_at_rest (events : list (Event R)) (g : Game R) :
  (canJump g = true -> vec_y (camera_position g) = 2 /\ vec_y (velocity g) = 0) ->
  canJump (run events g) = true ->
  vec_y (camera_position (run events g)) = 2 /\ vec_y (velocity (run events g)) = 0.
Proof.
  revert g. induction events as [|e events IH]; intros g Hg; [exact Hg|].
  change (run (e :: events) g) with (run events (handle g e)).
  apply IH. now apply handle_at_rest.
Qed.

(** X7: in exact arithmetic a jump starts at rest on the ground.  In
    every state a run of events reaches, an available jump means that
    the camera is at height 2 with no vertical velocity; so a Space key
    that jumps leaves a vertical velocity of exactly 8.  In binary64 this
    is not so: after a landing, a frame of 2^-30 seconds leaves the jump
    available (the height rounds back to 2, so the ground clamp does not
    run) with the velocity of that frame's gravity, and the jump then
    starts below 8. *)
Theorem jump_starts_at_rest :
  (forall events : list (Event R),
     canJump (run events initial) = true ->
     vec_y (camera_position (run events initial)) = 2 /\
     vec_y (velocity (run events initial)) = 0 /\
     vec_y (velocity (keydown "Space" (run events initial))) = 8) /\
  (canJump (run [Frame 2%float; Frame 0x1p-30%float] initial) = true /\
   vec_y (camera_position (run [Frame 2%float; Frame 0x1p-30%float] initial)) = 2%float /\
   PrimFloat.ltb (vec_y (velocity (run [Frame 2%float; Frame 0x1p-30%float] initial))) 0 = true /\
   PrimFloat.ltb
     (vec_y (velocity (keydown "Space" (run [Frame 2%float; Frame 0x1p-30%float] initial))))
     8 = true).
Proof.
  split; [|repeat split].
  intros events Hjump.
  destruct (run_at_rest events initial) as [Hp Hv]; [discriminate|exact Hjump|].
  split; [exact Hp|]. split; [exact Hv|].
  unfold keydown. simpl. rewrite Hjump. simpl. rewrite Hv. lra.
Qed.

(** A frame of two seconds lands the camera; the jump then starts at 8. *)
Lemma jump_starts_at_rest_witness :
  vec_y (camera_position (run [Frame 2] initial)) = 2 /\
  vec_y (velocity (run [Frame 2] initial)) = 0 /\
  vec_y (velocity (keydown "Space" (run [Frame 2] initial))) = 8.
Proof.
  apply (proj1 jump_starts_at_rest [Frame 2]).
  change (run [Frame 2] initial) with (animate 2 initial).
  apply ground_clamp. apply ltb_lt. rewrite animate_move_position_y.
  unfold lit. simpl. lra.
Defined.

End JumpReal.

(** ** The clamp of the pitch, in binary64 *)

Module ClampFloat.

Import Float64Facts.
Local Open Scope float_scope.

Lemma ltb_asym (x y : float) : (x <? y) = true -> (y <? x) = false.
Proof.
  rewrite !ltb_spec. unfold SFltb.
  rewrite (SFcompare_antisym (Prim2SF x) (Prim2SF y)).
  destruct (SFcompare (Prim2SF x) (Prim2SF y)) as [[]|]; simpl; congruence.
Qed.

Lemma leb_not_ltb (x y : float) : (x <=? y) = true -> (y <? x) = false.
Proof.
  rewrite ltb_spec, leb_spec. unfold SFltb, SFleb.
  rewrite (SFcompare_antisym (Prim2SF x) (Prim2SF y)).
  destruct (SFcompare (Prim2SF x) (Prim2SF y)) as [[]|]; simpl; congruence.
Qed.

(** There is one NaN. *)
Lemma nan_unique (x : float) : is_nan x = true -> x = nan.
Proof.
  intros Hx. apply Prim2SF_inj.
  destruct (Prim2SF x) as [s|s| |s m e] eqn:Hs; [| |reflexivity|];
    exfalso; assert (Hn : is_nan x = false) by (apply is_nan_spec; rewrite Hs; discriminate);
    congruence.
Qed.

Lemma nan_ltb (x y : float) : is_nan x = true -> (x <? y) = false /\ (y <? x) = false.
Proof.
  intros Hx. rewrite (nan_unique x Hx). rewrite !ltb_spec. unfold SFltb.
  change (Prim2SF nan) with S754_nan.
  split; [reflexivity|]. destruct (Prim2SF y) as [s|s| |s m e]; reflexivity.
Qed.

(** Line 44 as a case distinction: a number above the range becomes
    the upper bound, one below it the lower bound, and any other is kept
    as it is. *)
Lemma clamp_cases (t : float) :
  Float64.Math_max pitch_lower (Float64.Math_min pitch_upper t)
  = if pitch_upper <? t then pitch_upper
    else if t <? pitch_lower then pitch_lower
    else t.
Proof.
  destruct (is_nan t) eqn:Ht.
  - destruct (nan_ltb t pitch_upper Ht) as [_ ->].
    destruct (nan_ltb t pitch_lower Ht) as [-> _].
    rewrite (nan_unique t Ht). reflexivity.
  - unfold Float64.Math_min.
    change (is_nan pitch_upper) with false. rewrite Ht. cbv [orb].
    destruct (pitch_upper <? t) eqn:Hut; [reflexivity|].
    assert (Hm : (if t <? pitch_upper then t else if get_sign pitch_upper then pitch_upper else t) = t).
    { destruct (t <? pitch_upper); reflexivity. }
    rewrite Hm. unfold Float64.Math_max.
    change (is_nan pitch_lower) with false. rewrite Ht. cbv [orb].
    destruct (pitch_lower <? t) eqn:Hlt.
    + now rewrite (ltb_asym _ _ Hlt).
    + destruct (t <? pitch_lower); reflexivity.
Qed.

(** X14: the clamp of the pitch changes nothing within the range.  In
    binary64, for every state and every movement, the pitch a mouse move
    leaves is the pitch less 0.002 times the vertical movement where that
    lies between the bounds, bit for bit; the upper bound where it is
    above; the lower bound where it is below. *)
Theorem look_clamp_is_exact (mx my : float) (g : Game float) :
  let t := pitch g - or_else my (of_Z 0) * lit 0.002 in
  pitch (onMouseMove mx my g)
  = if pitch_upper <? t then pitch_upper
    else if t <? pitch_lower then pitch_lower
    else t.
Proof. intros t. apply clamp_cases. Qed.

Lemma sub_zero (x : float) : x - 0 = x.
Proof.
  apply Prim2SF_inj. rewrite sub_spec.
  change (Prim2SF 0) with (S754_zero false).
  destruct (Prim2SF x) as [s|s| |s m e]; try reflexivity.
  destruct s; reflexivity.
Qed.

(** X15: a mouse event without movement changes nothing.  In binary64,
    with the pitch in its range, a mouse move whose two movements are
    each 0, NaN or missing (all of which [||] takes for 0) leaves the
    whole state as it was, bit for bit. *)
Theorem look_without_movement (mx my : float) (g : Game float) :
  Float64.truthy mx = false -> Float64.truthy my = false ->
  pitch_in_range64 (pitch g) ->
  onMouseMove mx my g = g.
Proof.
  intros Hmx Hmy [Hlow Hup].
  destruct g as [p [rx ry rz] f b l ri cj v d ml].
  unfold onMouseMove, or_else.
  change (@truthy float Float64_Number) with Float64.truthy.
  rewrite Hmx, Hmy. unfold pitch in Hlow, Hup. simpl in Hlow, Hup.
  cbn [set_camera_rotation camera_rotation camera_position moveForward moveBackward
       moveLeft moveRight canJump velocity direction mouse_listener set_x set_y
       vec_x vec_y vec_z].
  change (@of_Z float Float64_Number 0 * lit 0.002)%num with 0.
  change (@sub float Float64_Number) with PrimFloat.sub.
  rewrite !sub_zero.
  change (Math_max (- Math_PI / of_Z 2) (Math_min (Math_PI / of_Z 2) rx))%num
    with (Float64.Math_max pitch_lower (Float64.Math_min pitch_upper rx)).
  rewrite clamp_cases.
  rewrite (leb_not_ltb _ _ Hup), (leb_not_ltb _ _ Hlow). reflexivity.
Qed.

(** A NaN and a 0 at the initial state. *)
Lemma look_without_movement_witness :
  onMouseMove nan 0 (initial (num:=float)) = initial.
Proof.
  apply (look_without_movement nan 0 initial); [reflexivity|reflexivity|].
  split; reflexivity.
Defined.

End ClampFloat.

(** ** The direction of a frame, in binary64 *)

Module DirectionFloat.

Local Open Scope float_scope.

Lemma frame_direction64 (dt : float) (g : Game float) :
  vec_y (direction g) = 0 ->
  direction (animate_move dt g)
  = direction64 (moveForward g) (moveBackward g) (moveLeft g) (moveRight g).
Proof.
  intros Hdy. destruct (animate_move_formulas dt g) as [-> _].
  destruct g as [p r f b l ri cj v [dx dy dz] ml].
  change (dy = 0) in Hdy. subst dy.
  destruct f, b, l, ri; reflexivity.
Qed.

Lemma direction64_y (f b l r : bool) : vec_y (direction64 f b l r) = 0.
Proof. unfold direction64. destruct (xorb r l && xorb f b); reflexivity. Qed.

Lemma handle_direction64 (g : Game float) (e : Event float) :
  (exists f b l r, direction g = direction64 f b l r) ->
  exists f b l r, direction (handle g e) = direction64 f b l r.
Proof.
  intros [f [b [l [r Hd]]]].
  destruct e as [delta|code|code|locked|mx my]; unfold handle.
  - exists (moveForward g), (moveBackward g), (moveLeft g), (moveRight g).
    unfold animate.
    destruct (animate_ground_keeps (animate_move delta g)) as [_ [-> _]].
    apply frame_direction64. rewrite Hd. apply direction64_y.
  - exists f, b, l, r. now destruct (keydown_keeps code g) as [_ [_ [-> _]]].
  - exists f, b, l, r. now destruct (keyup_keeps code g) as [_ [_ [-> _]]].
  - exists f, b, l, r. now destruct (onPointerLockChange_keeps locked g) as [_ [_ ->]].
  - exists f, b, l, r. destruct (mouse_listener g); [|exact Hd].
    now destruct (onMouseMove_keeps mx my g) as [_ [-> _]].
Qed.

(** X16: the direction is never NaN.  In binary64, for every state
    whose direction has [y = 0] and every delta, a frame leaves one of
    nine directions: the zero vector, a unit vector along an axis, or a
    diagonal with both components [diagonal64] in size; so does every run
    from the initial state.  Each has numbers for components, and its
    squared length is at most 1: a diagonal is no faster than an axis. *)
Theorem direction_is_clean :
  (forall dt g, vec_y (direction g) = 0 ->
     direction (animate_move dt g)
     = direction64 (moveForward g) (moveBackward g) (moveLeft g) (moveRight g)) /\
  (forall events, exists f b l r,
     direction (run events initial) = direction64 f b l r) /\
  (forall f b l r,
     let d := direction64 f b l r in
     is_nan (vec_x d) = false /\ is_nan (vec_z d) = false /\
     (vec_x d * vec_x d + vec_z d * vec_z d <=? 1) = true).
Proof.
  split; [exact frame_direction64|]. split.
  - intros events.
    assert (Hrun : forall g : Game float,
              (exists f b l r, direction g = direction64 f b l r) ->
              exists f b l r, direction (run events g) = direction64 f b l r).
    { induction events as [|e events IH]; intros g Hg; [exact Hg|].
      change (run (e :: events) g) with (run events (handle g e)).
      apply IH. now apply handle_direction64. }
    apply Hrun. exists false, false, false, false. reflexivity.
  - intros f b l r. destruct f, b, l, r; repeat split.
Qed.

(** W and D held: the diagonal. *)
Lemma direction_is_clean_witness :
  direction (animate_move 0.25 (keydown "KeyD" (keydown "KeyW" initial)))
  = mkVector3 diagonal64 0 diagonal64.
Proof.
  exact (proj1 direction_is_clean 0.25 (keydown "KeyD" (keydown "KeyW" initial)) eq_refl).
Defined.

End DirectionFloat.

(** ** The tick, in binary64 *)

Module TickFloat.

Local Open Scope float_scope.

Lemma frame_direction_table (g : Game float) :
  vec_y (direction g) = 0 ->
  frame_direction g
  = direction64 (moveForward g) (moveBackward g) (moveLeft g) (moveRight g).
Proof.
  intros Hdy. rewrite <- (DirectionFloat.frame_direction64 0 g Hdy).
  now destruct (animate_move_formulas 0 g) as [-> _].
Qed.

Lemma steps_1_to_5 (dt : float) (g : Game float) :
  vec_y (direction g) = 0 ->
  velocity (animate_move dt g) = step_velocity64 dt g /\
  camera_position (animate_move dt g) = step_position64 dt g.
Proof.
  intros Hdy. destruct (animate_move_formulas dt g) as [_ [Hv Hp]].
  rewrite (frame_direction_table g Hdy) in Hv, Hp. split; assumption.
Qed.

(** The ground clamp of lines 196-200 on any state. *)
Lemma animate_ground_cases (m : Game float) :
  ((vec_y (camera_position m) <? 2) = true ->
   velocity (animate_ground m) = set_y 0 (velocity m) /\
   camera_position (animate_ground m) = set_y 2 (camera_position m) /\
   canJump (animate_ground m) = true) /\
  ((vec_y (camera_position m) <? 2) = false -> animate_ground m = m).
Proof.
  unfold animate_ground.
  change (@ltb float Float64_Number) with PrimFloat.ltb.
  change (@of_Z float Float64_Number 2) with 2.
  destruct (vec_y (camera_position m) <? 2); split; intros H; try discriminate H.
  - repeat split.
  - reflexivity.
Qed.

Lemma direction64_length (f b l r : bool) :
  (xorb r l || xorb f b = true ->
   (1 - 0x1p-52 <=? squared_length64 (direction64 f b l r)) = true /\
   (squared_length64 (direction64 f b l r) <=? 1) = true) /\
  (xorb r l || xorb f b = false -> direction64 f b l r = mkVector3 0 0 0).
Proof.
  destruct f, b, l, r; split; intros H; try discriminate H; repeat split.
Qed.

(** C1: one tick is steps 1 to 5 and then the ground.  In binary64, for
    every delta and every state whose direction has [y = 0] (every state
    a run reaches), lines 181-194 leave exactly the velocity and the
    position of the formulas: gravity, damping of x and z, the direction
    of the table, the acceleration of z under forward or backward and of
    x under left or right, both subtracted, then the position moved by
    the new velocity.  The direction of the table has length 1 to within
    one rounding where the keys give a net direction (its squared length
    is between 1 - 2^-52 and 1) and is zero otherwise.  The tick ends
    with lines 196-200: where the position of the formulas is below 2 the
    tick leaves the height at 2, the vertical velocity at 0 and the jump
    available, the other components being those of the formulas; where
    it is not, the tick leaves the formulas' values. *)
Theorem tick_formulas :
  (forall (dt : float) (g : Game float),
      vec_y (direction g) = 0 ->
      (velocity (animate_move dt g) = step_velocity64 dt g /\
       camera_position (animate_move dt g) = step_position64 dt g /\
       direction (animate_move dt g)
       = direction64 (moveForward g) (moveBackward g) (moveLeft g) (moveRight g)) /\
      ((vec_y (step_position64 dt g) <? 2) = true ->
       velocity (animate dt g) = set_y 0 (step_velocity64 dt g) /\
       camera_position (animate dt g) = set_y 2 (step_position64 dt g) /\
       canJump (animate dt g) = true) /\
      ((vec_y (step_position64 dt g) <? 2) = false ->
       velocity (animate dt g) = step_velocity64 dt g /\
       camera_position (animate dt g) = step_position64 dt g /\
       canJump (animate dt g) = canJump g)) /\
  (forall events, vec_y (direction (run events initial)) = 0) /\
  (forall f b l r,
      (xorb r l || xorb f b = true ->
       (1 - 0x1p-52 <=? squared_length64 (direction64 f b l r)) = true /\
       (squared_length64 (direction64 f b l r) <=? 1) = true) /\
      (xorb r l || xorb f b = false -> direction64 f b l r = mkVector3 0 0 0)).
Proof.
  split; [|split].
  - intros dt g Hdy. destruct (steps_1_to_5 dt g Hdy) as [Hv Hp].
    pose proof (DirectionFloat.frame_direction64 dt g Hdy) as Hd.
    destruct (animate_move_keeps dt g) as [Hj _].
    unfold animate. revert Hv Hp Hd Hj.
    generalize (animate_move dt g) as m. intros m Hv Hp Hd Hj.
    destruct (animate_ground_cases m) as [Hlow Hhigh].
    rewrite Hp in Hlow, Hhigh. rewrite Hv in Hlow.
    split; [auto|]. split.
    + exact Hlow.
    + intros H. rewrite (Hhigh H). auto.
  - exact MovementFloat.direction_y_reachable.
  - exact direction64_length.
Qed.

(** The scenario of C1, from rest at (8, 10, 8) with forward held and
    dt = 1: the formulas, and what the tick leaves of them. *)
Lemma tick_formulas_witness :
  velocity (animate_move 1 at_rest_forward)
  = mkVector3 (0 - 0 * 10 * 1) (0 - 0x1.399999999999ap+3 * 1) (0 - 0 * 10 * 1 - 1 * 20 * 1) /\
  camera_position (animate_move 1 at_rest_forward)
  = mkVector3 (8 + (0 - 0 * 10 * 1) * 1)
              (10 + (0 - 0x1.399999999999ap+3 * 1) * 1)
              (8 + (0 - 0 * 10 * 1 - 1 * 20 * 1) * 1) /\
  velocity (animate 1 at_rest_forward) = mkVector3 (0 - 0 * 10 * 1) 0 (0 - 0 * 10 * 1 - 1 * 20 * 1) /\
  camera_position (animate 1 at_rest_forward)
  = mkVector3 (8 + (0 - 0 * 10 * 1) * 1) 2 (8 + (0 - 0 * 10 * 1 - 1 * 20 * 1) * 1) /\
  canJump (animate 1 at_rest_forward) = true.
Proof.
  destruct (proj1 tick_formulas 1 at_rest_forward eq_refl) as [[Hv [Hp _]] [Hlow _]].
  destruct (Hlow eq_refl) as [Hv' [Hp' Hj]].
  split; [exact Hv|]. split; [exact Hp|]. split; [exact Hv'|]. split; [exact Hp'|exact Hj].
Defined.

(** In the scenario the literal formulas give the velocity
    (0, -9.8, -20) and the position (8, 0.2, -12), with the height below
    the ground; the tick ends with the velocity (0, 0, -20) and the
    position (8, 2, -12), which are not the values of the formulas. *)
Lemma tick_scenario_ends_on_the_ground :
  mkVector3 (0 - 0 * 10 * 1) (0 - 0x1.399999999999ap+3 * 1) (0 - 0 * 10 * 1 - 1 * 20 * 1)
  = mkVector3 0 (-0x1.399999999999ap+3) (-20) /\
  mkVector3 (8 + (0 - 0 * 10 * 1) * 1)
            (10 + (0 - 0x1.399999999999ap+3 * 1) * 1)
            (8 + (0 - 0 * 10 * 1 - 1 * 20 * 1) * 1)
  = mkVector3 8 0x1.999999999998p-3 (-12) /\
  velocity (animate 1 at_rest_forward) = mkVector3 0 0 (-20) /\
  camera_position (animate 1 at_rest_forward) = mkVector3 8 2 (-12) /\
  (vec_y (velocity (animate 1 at_rest_forward)) =? -0x1.399999999999ap+3) = false /\
  (vec_y (camera_position (animate 1 at_rest_forward)) =? 0x1.999999999998p-3) = false.
Proof. repeat split. Qed.

End TickFloat.

(** ** Signs in binary64 *)

Section SpecFloatSigns.

Variables prec emax : Z.

(** Rounding keeps the sign it is given. *)
Lemma binary_round_aux_toward (sx : bool) (mx ex : Z) (lx : location) :
  0 <= mx -> toward sx (binary_round_aux prec emax sx mx ex lx).
Proof.
  intros Hm. unfold binary_round_aux.
  pose proof (shr_fexp_nonneg prec emax mx ex lx Hm) as H1.
  destruct (shr_fexp prec emax mx ex lx) as [mrs' e']. simpl in H1.
  pose proof (shr_fexp_nonneg prec emax
                (round_nearest_even (shr_m mrs') (loc_of_shr_record mrs')) e'
                loc_Exact (round_nearest_even_nonneg _ _ H1)) as H2.
  destruct (shr_fexp prec emax _ e' loc_Exact) as [mrs'' e'']. simpl in H2.
  destruct (shr_m mrs'') as [|p|p]; [exact I| |lia].
  destruct (e'' <=? emax - prec); reflexivity.
Qed.

End SpecFloatSigns.

Module SignFloat.

Import Float64Facts.
Local Open Scope float_scope.

Lemma clock_delta_spec (dt : float) :
  clock_delta dt ->
  Prim2SF dt = S754_zero false \/ exists m e, Prim2SF dt = S754_finite false m e.
Proof.
  intros [->|[Hpos Hfin]]; [left; reflexivity|right].
  rewrite ltb_spec in Hpos, Hfin. unfold SFltb in Hpos, Hfin.
  change (Prim2SF 0) with (S754_zero false) in Hpos.
  change (Prim2SF infinity) with (S754_infinity false) in Hfin.
  destruct (Prim2SF dt) as [s|s| |s m e]; simpl in Hpos, Hfin; try discriminate.
  - destruct s; discriminate.
  - destruct s; [discriminate|]. eauto.
Qed.

(** Zero times a delta of the clock is zero. *)
Lemma mul_zero_delta (dt : float) : clock_delta dt -> 0 * dt = 0.
Proof.
  intros Hdt. apply Prim2SF_inj. rewrite mul_spec.
  change (Prim2SF 0) with (S754_zero false).
  destruct (clock_delta_spec dt Hdt) as [->|[m [e ->]]]; reflexivity.
Qed.

Lemma toward_leb (x : float) : toward true (Prim2SF x) -> (x <=? 0) = true.
Proof.
  rewrite leb_spec. unfold SFleb. change (Prim2SF 0) with (S754_zero false).
  destruct (Prim2SF x) as [s|s| |s m e]; simpl; try reflexivity; try contradiction;
    intros ->; reflexivity.
Qed.

Lemma toward_geb (x : float) : toward false (Prim2SF x) -> (0 <=? x) = true.
Proof.
  rewrite leb_spec. unfold SFleb. change (Prim2SF 0) with (S754_zero false).
  destruct (Prim2SF x) as [s|s| |s m e]; simpl; try reflexivity; try contradiction;
    intros ->; reflexivity.
Qed.

(** A velocity at rest, pushed for one frame by the acceleration [c]:
    the velocity [0 - c * dt] and the step [(0 - c * dt) * dt] lie on
    the side of zero opposite to [c]. *)
Lemma push_toward (c dt : float) (s : bool) (mc : positive) (ec : Z) :
  Prim2SF c = S754_finite s mc ec -> clock_delta dt ->
  toward (negb s) (Prim2SF (0 - c * dt)) /\
  toward (negb s) (Prim2SF ((0 - c * dt) * dt)).
Proof.
  intros Hc Hdt. rewrite mul_spec, sub_spec, mul_spec, Hc.
  change (Prim2SF 0) with (S754_zero false).
  destruct (clock_delta_spec dt Hdt) as [->|[m [e ->]]].
  - destruct s; split; exact I.
  - unfold SF64mul, SF64sub. cbn [SFmul].
    pose proof (binary_round_aux_toward prec emax (xorb s false) (Z.pos (mc * m)) (ec + e)
                  loc_Exact ltac:(lia)) as Hp.
    destruct (binary_round_aux prec emax (xorb s false) (Z.pos (mc * m)) (ec + e) loc_Exact)
      as [sp|sp| |sp mp ep]; simpl in Hp; try contradiction.
    + destruct sp; cbn [SFsub SFmul]; split; exact I.
    + subst sp. cbn [SFsub SFmul]. split; [destruct s; reflexivity|].
      destruct s; reflexivity.
    + subst sp. cbn [SFsub SFmul]. split; [destruct s; reflexivity|].
      replace (xorb (negb (xorb s false)) false) with (negb s) by (destruct s; reflexivity).
      apply binary_round_aux_toward. lia.
Qed.

End SignFloat.

(** ** The keys and the axes of the world, in binary64 *)

Module KeysFloat.

Import SignFloat.
Local Open Scope float_scope.

(** The acceleration of an axis with one key held is a number other
    than zero, with the sign of the key. *)
Lemma acceleration_z (b l r : bool) (f := negb b) :
  exists m e, Prim2SF (vec_z (direction64 f b l r) * 20) = S754_finite b m e.
Proof. destruct b, l, r; vm_compute; eauto. Qed.

Lemma acceleration_x (f b l : bool) (r := negb l) :
  exists m e, Prim2SF (vec_x (direction64 f b l r) * 20) = S754_finite l m e.
Proof. destruct f, b, l; vm_compute; eauto. Qed.

(** The horizontal velocity a frame leaves, from rest. *)
Lemma velocity_from_rest (dt : float) (g : Game float) :
  clock_delta dt -> vec_y (direction g) = 0 ->
  vec_x (velocity g) = 0 -> vec_z (velocity g) = 0 ->
  let dir := direction64 (moveForward g) (moveBackward g) (moveLeft g) (moveRight g) in
  vec_z (velocity (animate_move dt g))
  = (if moveForward g || moveBackward g then 0 - vec_z dir * 20 * dt else 0) /\
  vec_x (velocity (animate_move dt g))
  = (if moveLeft g || moveRight g then 0 - vec_x dir * 20 * dt else 0) /\
  vec_z (camera_position (animate_move dt g))
  = vec_z (camera_position g) + vec_z (velocity (animate_move dt g)) * dt /\
  vec_x (camera_position (animate_move dt g))
  = vec_x (camera_position g) + vec_x (velocity (animate_move dt g)) * dt.
Proof.
  intros Hdt Hdy Hvx Hvz dir.
  destruct (TickFloat.steps_1_to_5 dt g Hdy) as [Hv Hp]. rewrite Hp, Hv.
  unfold step_position64, step_velocity64. fold dir.
  cbn [vec_x vec_y vec_z]. rewrite Hvx, Hvz.
  change (0 * 10) with 0. rewrite (mul_zero_delta dt Hdt). change (0 - 0) with 0.
  repeat split.
Qed.

(** X10: which way each key pushes the camera.  In binary64, for a
    delta of the clock and a state with no horizontal velocity, a frame
    moves [z] by [velocity.z * dt] and [x] by [velocity.x * dt], where
    with W alone of its axis the velocity and the step of [z] are never
    above zero, with S never below; with D (moveRight) the velocity and
    the step of [x] are never above zero, with A (moveLeft) never below
    (three.js looks down [-z] with [+x] on the right at rotation 0); an
    axis with neither or both of its keys held keeps a velocity of 0. *)
Theorem keys_push_along_world_axes (dt : float) (g : Game float) :
  clock_delta dt -> vec_y (direction g) = 0 ->
  vec_x (velocity g) = 0 -> vec_z (velocity g) = 0 ->
  let v' := velocity (animate_move dt g) in
  let p := camera_position g in
  let p' := camera_position (animate_move dt g) in
  (vec_z p' = vec_z p + vec_z v' * dt /\ vec_x p' = vec_x p + vec_x v' * dt) /\
  (moveForward g = true -> moveBackward g = false ->
     (vec_z v' <=? 0) = true /\ (vec_z v' * dt <=? 0) = true) /\
  (moveBackward g = true -> moveForward g = false ->
     (0 <=? vec_z v') = true /\ (0 <=? vec_z v' * dt) = true) /\
  (moveRight g = true -> moveLeft g = false ->
     (vec_x v' <=? 0) = true /\ (vec_x v' * dt <=? 0) = true) /\
  (moveLeft g = true -> moveRight g = false ->
     (0 <=? vec_x v') = true /\ (0 <=? vec_x v' * dt) = true) /\
  (moveForward g = moveBackward g -> vec_z v' = 0) /\
  (moveLeft g = moveRight g -> vec_x v' = 0).
Proof.
  intros Hdt Hdy Hvx Hvz v' p p'.
  destruct (velocity_from_rest dt g Hdt Hdy Hvx Hvz) as [Hz [Hx [Hpz Hpx]]].
  fold v' in Hz, Hx, Hpz, Hpx. fold p p' in Hpz, Hpx.
  split; [split; assumption|]. rewrite Hz, Hx. clear Hz Hx Hpz Hpx.
  split; [|split; [|split; [|split; [|split]]]].
  - intros -> ->. cbn [orb].
    destruct (acceleration_z false (moveLeft g) (moveRight g)) as [m [e Hc]].
    destruct (push_toward _ dt _ _ _ Hc Hdt) as [H1 H2].
    split; [exact (toward_leb _ H1)|exact (toward_leb _ H2)].
  - intros -> ->. cbn [orb].
    destruct (acceleration_z true (moveLeft g) (moveRight g)) as [m [e Hc]].
    destruct (push_toward _ dt _ _ _ Hc Hdt) as [H1 H2].
    split; [exact (toward_geb _ H1)|exact (toward_geb _ H2)].
  - intros -> ->. cbn [orb].
    destruct (acceleration_x (moveForward g) (moveBackward g) false) as [m [e Hc]].
    destruct (push_toward _ dt _ _ _ Hc Hdt) as [H1 H2].
    split; [exact (toward_leb _ H1)|exact (toward_leb _ H2)].
  - intros -> ->. cbn [orb].
    destruct (acceleration_x (moveForward g) (moveBackward g) true) as [m [e Hc]].
    destruct (push_toward _ dt _ _ _ Hc Hdt) as [H1 H2].
    split; [exact (toward_geb _ H1)|exact (toward_geb _ H2)].
  - intros ->. destruct (moveBackward g); [|reflexivity]. cbn [orb].
    assert (Hd : vec_z (direction64 true true (moveLeft g) (moveRight g)) * 20 = 0)
      by (destruct (moveLeft g), (moveRight g); reflexivity).
    rewrite Hd, (mul_zero_delta dt Hdt). reflexivity.
  - intros ->. destruct (moveRight g); [|reflexivity]. cbn [orb].
    assert (Hd : vec_x (direction64 (moveForward g) (moveBackward g) true true) * 20 = 0)
      by (destruct (moveForward g), (moveBackward g); reflexivity).
    rewrite Hd, (mul_zero_delta dt Hdt). reflexivity.
Qed.

(** W held for a frame of one second, from rest at (8, 10, 8). *)
Lemma keys_push_along_world_axes_witness :
  (vec_z (velocity (animate_move 1 at_rest_forward)) <=? 0) = true /\
  (vec_z (velocity (animate_move 1 at_rest_forward)) * 1 <=? 0) = true.
Proof.
  assert (Hdt : clock_delta 1) by (right; split; reflexivity).
  destruct (keys_push_along_world_axes 1 at_rest_forward Hdt eq_refl eq_refl eq_refl)
    as [_ [Hforward _]].
  exact (Hforward eq_refl eq_refl).
Defined.

(** X11: two opposite keys held together count as none.  In binary64,
    for a delta of the clock and a state whose direction has [y = 0], a
    tick with W and S both held leaves the velocity, the position, the
    direction and the jump it leaves with neither held, bit for bit,
    whatever A and D are; the same for A and D. *)
Theorem opposite_keys_cancel (dt : float) (g : Game float) :
  clock_delta dt -> vec_y (direction g) = 0 ->
  (velocity (animate dt (set_moveForward true (set_moveBackward true g)))
   = velocity (animate dt (set_moveForward false (set_moveBackward false g))) /\
   camera_position (animate dt (set_moveForward true (set_moveBackward true g)))
   = camera_position (animate dt (set_moveForward false (set_moveBackward false g))) /\
   direction (animate dt (set_moveForward true (set_moveBackward true g)))
   = direction (animate dt (set_moveForward false (set_moveBackward false g))) /\
   canJump (animate dt (set_moveForward true (set_moveBackward true g)))
   = canJump (animate dt (set_moveForward false (set_moveBackward false g)))) /\
  (velocity (animate dt (set_moveLeft true (set_moveRight true g)))
   = velocity (animate dt (set_moveLeft false (set_moveRight false g))) /\
   camera_position (animate dt (set_moveLeft true (set_moveRight true g)))
   = camera_position (animate dt (set_moveLeft false (set_moveRight false g))) /\
   direction (animate dt (set_moveLeft true (set_moveRight true g)))
   = direction (animate dt (set_moveLeft false (set_moveRight false g))) /\
   canJump (animate dt (set_moveLeft true (set_moveRight true g)))
   = canJump (animate dt (set_moveLeft false (set_moveRight false g)))).
Proof.
  intros Hdt Hdy.
  assert (Hsame : forall a b : Game float,
            vec_y (direction a) = 0 -> vec_y (direction b) = 0 ->
            step_velocity64 dt a = step_velocity64 dt b ->
            camera_position a = camera_position b -> canJump a = canJump b ->
            direction64 (moveForward a) (moveBackward a) (moveLeft a) (moveRight a)
            = direction64 (moveForward b) (moveBackward b) (moveLeft b) (moveRight b) ->
            velocity (animate dt a) = velocity (animate dt b) /\
            camera_position (animate dt a) = camera_position (animate dt b) /\
            direction (animate dt a) = direction (animate dt b) /\
            canJump (animate dt a) = canJump (animate dt b)).
  { intros a b Ha Hb Hv Hp Hj Hd.
    destruct (TickFloat.steps_1_to_5 dt a Ha) as [Hva Hpa].
    destruct (TickFloat.steps_1_to_5 dt b Hb) as [Hvb Hpb].
    pose proof (DirectionFloat.frame_direction64 dt a Ha) as Hda.
    pose proof (DirectionFloat.frame_direction64 dt b Hb) as Hdb.
    destruct (animate_move_keeps dt a) as [Hja _].
    destruct (animate_move_keeps dt b) as [Hjb _].
    assert (Hpab : step_position64 dt a = step_position64 dt b)
      by (unfold step_position64; now rewrite Hv, Hp).
    rewrite Hv in Hva. rewrite Hpab in Hpa. rewrite Hd in Hda. rewrite Hj in Hja.
    unfold animate. revert Hva Hpa Hda Hja Hvb Hpb Hdb Hjb.
    generalize (animate_move dt a) as ma. generalize (animate_move dt b) as mb.
    intros mb ma Hva Hpa Hda Hja Hvb Hpb Hdb Hjb.
    unfold animate_ground. rewrite Hpa, Hpb.
    destruct (vec_y (step_position64 dt b) <? of_Z 2)%num;
      cbn [velocity camera_position direction canJump set_velocity set_camera_position
           set_canJump]; rewrite ?Hva, ?Hvb, ?Hpa, ?Hpb, ?Hda, ?Hdb, ?Hja, ?Hjb;
      repeat split. }
  split; apply Hsame; try exact Hdy; try reflexivity.
  - unfold step_velocity64.
    cbn [moveForward moveBackward moveLeft moveRight velocity set_moveForward
         set_moveBackward orb].
    assert (Hz : vec_z (direction64 true true (moveLeft g) (moveRight g)) * 20 = 0)
      by (destruct (moveLeft g), (moveRight g); reflexivity).
    rewrite Hz, (SignFloat.mul_zero_delta dt Hdt), ClampFloat.sub_zero. reflexivity.
  - unfold step_velocity64.
    cbn [moveForward moveBackward moveLeft moveRight velocity set_moveLeft
         set_moveRight orb].
    assert (Hx : vec_x (direction64 (moveForward g) (moveBackward g) true true) * 20 = 0)
      by (destruct (moveForward g), (moveBackward g); reflexivity).
    rewrite Hx, (SignFloat.mul_zero_delta dt Hdt), ClampFloat.sub_zero.
    destruct (moveForward g), (moveBackward g); reflexivity.
Qed.

(** W and S held for a frame of a quarter of a second, at the start. *)
Lemma opposite_keys_cancel_witness :
  velocity (animate 0.25 (set_moveForward true (set_moveBackward true initial)))
  = velocity (animate 0.25 (set_moveForward false (set_moveBackward false initial))).
Proof.
  assert (Hdt : clock_delta 0.25) by (right; split; reflexivity).
  exact (proj1 (proj1 (opposite_keys_cancel 0.25 initial Hdt eq_refl))).
Defined.

End KeysFloat.

(** ** The cells of the atlas, in binary64 *)

Module AtlasCells64.

Lemma atlas_ids_In (i : Z) : -256 <= i <= 256 -> In i atlas_ids.
Proof.
  intros Hi. unfold atlas_ids. apply in_map_iff.
  exists (Z.to_nat (i + 256)). split; [lia|]. apply in_seq. lia.
Qed.

Lemma atlas_table_In (i : Z) : -256 <= i <= 256 -> In (i, quad (num:=float) i) atlas_table.
Proof.
  intros Hi. unfold atlas_table. apply in_map_iff.
  exists i. split; [reflexivity|now apply atlas_ids_In].
Qed.

Lemma atlas_table_checked : cells_checked atlas_table = true.
Proof. vm_compute. reflexivity. Qed.

Lemma cells_checked_at (table : list (Z * list (Vector2 float)))
      (a b : Z * list (Vector2 float)) :
  cells_checked table = true -> In a table -> In b table ->
  Bool.eqb (forallb in_texture64 (snd a)) ((1 <=? fst a) && (fst a <=? 16)) = true /\
  (fst a < fst b -> left_of64 (snd a) (snd b) = true).
Proof.
  unfold cells_checked. intros Hall Ha Hb.
  rewrite forallb_forall in Hall. specialize (Hall a Ha).
  apply andb_true_iff in Hall. destruct Hall as [Hunit Hpairs].
  split; [exact Hunit|]. intros Hlt.
  rewrite forallb_forall in Hpairs. specialize (Hpairs b Hb).
  destruct (Z.ltb_spec (fst a) (fst b)) as [_|Hge]; [exact Hpairs|lia].
Qed.

(** X12: the cells of the atlas, in binary64.  For every id from -256
    to 256, the quad [getUVForBlock] returns lies within the texture,
    [0 <= u, v <= 1], exactly for the ids 1 to 16; and the quad of a
    larger id of that range lies to its right: no [u] of the smaller id
    is above a [u] of the larger, and its first corner is strictly to
    the left, so that the two quads differ. *)
Theorem atlas_cells (i : Z) :
  -256 <= i <= 256 ->
  getUVForBlock (num:=float) i = Return (quad i) /\
  (forallb in_texture64 (quad i) = true <-> 1 <= i <= 16) /\
  (forall j, i < j <= 256 -> left_of64 (quad i) (quad j) = true).
Proof.
  intros Hi. split; [apply getUVForBlock_quad|]. split.
  - destruct (cells_checked_at atlas_table (i, quad i) (i, quad i) atlas_table_checked
                (atlas_table_In i Hi) (atlas_table_In i Hi)) as [Hunit _].
    apply Bool.eqb_prop in Hunit. unfold snd, fst in Hunit. rewrite Hunit.
    rewrite andb_true_iff, Z.leb_le, Z.leb_le. tauto.
  - intros j Hj.
    assert (Hj' : -256 <= j <= 256) by lia.
    destruct (cells_checked_at atlas_table (i, quad i) (j, quad j) atlas_table_checked
                (atlas_table_In i Hi) (atlas_table_In j Hj')) as [_ Hleft].
    apply Hleft. unfold fst. lia.
Qed.

(** Air and the first id past the row: both outside the texture. *)
Lemma atlas_cells_witness :
  (forallb in_texture64 (quad (num:=float) 0) = true <-> 1 <= 0 <= 16) /\
  left_of64 (quad (num:=float) 16) (quad 17) = true.
Proof.
  assert (H0 : -256 <= 0 <= 256) by lia. assert (H16 : -256 <= 16 <= 256) by lia.
  split.
  - exact (proj1 (proj2 (atlas_cells 0 H0))).
  - apply (proj2 (proj2 (atlas_cells 16 H16))). lia.
Defined.

End AtlasCells64.

(** ** A height that is not a number, in binary64 *)

Module NaNFloat.

Import Float64Facts.
Local Open Scope float_scope.

Lemma is_nan_true (x : float) : is_nan x = true <-> Prim2SF x = S754_nan.
Proof.
  split; intros H.
  - destruct (Prim2SF x) as [s|s| |s m e] eqn:Hx; [| |reflexivity|];
      exfalso; assert (Hn : is_nan x = false) by (apply is_nan_spec; rewrite Hx; discriminate);
      congruence.
  - destruct (is_nan x) eqn:Hn; [reflexivity|].
    apply is_nan_spec in Hn. contradiction.
Qed.

Lemma add_nan_l (x y : float) : is_nan x = true -> is_nan (x + y) = true.
Proof.
  rewrite !is_nan_true, add_spec. intros ->. reflexivity.
Qed.

Lemma add_nan_r (x y : float) : is_nan y = true -> is_nan (x + y) = true.
Proof.
  rewrite !is_nan_true, add_spec. intros ->.
  destruct (Prim2SF x) as [s|s| |s m e]; reflexivity.
Qed.

Lemma mul_nan_r (x y : float) : is_nan y = true -> is_nan (x * y) = true.
Proof.
  rewrite !is_nan_true, mul_spec. intros ->.
  destruct (Prim2SF x) as [s|s| |s m e]; reflexivity.
Qed.

Lemma nan_not_below (x y : float) : is_nan x = true -> (x <? y) = false.
Proof.
  rewrite is_nan_true, ltb_spec. intros ->. reflexivity.
Qed.

Lemma animate_nan_height (delta : float) (g : Game float) :
  is_nan (vec_y (camera_position g)) = true \/ is_nan delta = true ->
  is_nan (vec_y (camera_position (animate delta g))) = true /\
  canJump (animate delta g) = canJump g.
Proof.
  intros Hnan.
  assert (Hmoved : is_nan (vec_y (camera_position (animate_move delta g))) = true).
  { rewrite animate_move_position_y.
    destruct Hnan as [Hy|Hd]; [now apply add_nan_l|].
    apply add_nan_r. now apply mul_nan_r. }
  unfold animate, animate_ground.
  change (@ltb float Float64_Number) with PrimFloat.ltb.
  rewrite (nan_not_below _ _ Hmoved). split; [exact Hmoved|].
  now destruct (animate_move_keeps delta g) as [-> _].
Qed.

Lemma handle_nan_height (g : Game float) (e : Event float) :
  is_nan (vec_y (camera_position g)) = true ->
  is_nan (vec_y (camera_position (handle g e))) = true /\
  (canJump g = false -> canJump (handle g e) = false).
Proof.
  intros Hy. destruct e as [delta|code|code|locked|mx my]; unfold handle.
  - destruct (animate_nan_height delta g (or_introl Hy)) as [Hy' ->]. auto.
  - destruct (keydown_keeps code g) as [-> _]. split; [exact Hy|].
    unfold keydown.
    repeat (match goal with |- context [String.eqb ?a ?b] => destruct (String.eqb a b) end);
      simpl; auto.
  - destruct (keyup_keeps code g) as [-> _]. split; [exact Hy|].
    unfold keyup.
    repeat (match goal with |- context [String.eqb ?a ?b] => destruct (String.eqb a b) end);
      simpl; auto.
  - destruct (onPointerLockChange_keeps locked g) as [-> _]. split; [exact Hy|].
    destruct locked; auto.
  - destruct (mouse_listener g); [|auto].
    destruct (onMouseMove_keeps mx my g) as [-> _]. auto.
Qed.

(** X19: a height that is NaN stays NaN.  In binary64 a frame whose
    delta is NaN leaves the height NaN, and does not touch the jump.
    From then on the ground clamp never runs, since no comparison with
    NaN holds: through any events the height stays NaN, a jump that is
    not available never comes back, and after one Space key there is no
    jump any more. *)
Theorem nan_height_is_kept :
  (forall g, is_nan (vec_y (camera_position (animate nan g))) = true /\
             canJump (animate nan g) = canJump g) /\
  (forall events g,
     is_nan (vec_y (camera_position g)) = true ->
     is_nan (vec_y (camera_position (run events g))) = true /\
     (canJump g = false -> canJump (run events g) = false) /\
     canJump (run (KeyDown "Space" :: events) g) = false).
Proof.
  assert (Hrun : forall events g,
            is_nan (vec_y (camera_position g)) = true ->
            is_nan (vec_y (camera_position (run events g))) = true /\
            (canJump g = false -> canJump (run events g) = false)).
  { induction events as [|e events IH]; intros g Hy; [auto|].
    change (run (e :: events) g) with (run events (handle g e)).
    destruct (handle_nan_height g e Hy) as [Hy' Hj'].
    destruct (IH (handle g e) Hy') as [Hy'' Hj'']. auto. }
  split.
  - intros g. apply animate_nan_height. now right.
  - intros events g Hy. destruct (Hrun events g Hy) as [Hy' Hj].
    split; [exact Hy'|]. split; [exact Hj|].
    change (run (KeyDown "Space" :: events) g) with (run events (keydown "Space" g)).
    apply Hrun.
    + now destruct (keydown_keeps "Space" g) as [-> _].
    + unfold keydown. simpl. reflexivity.
Qed.

(** A NaN delta, then two frames around a Space key. *)
Lemma nan_height_is_kept_witness :
  is_nan (vec_y (camera_position
                   (run [Frame 0.5; KeyDown "Space"; Frame 0.5] (animate nan initial)))) = true.
Proof.
  exact (proj1 (proj2 nan_height_is_kept
                  [Frame 0.5; KeyDown "Space"; Frame 0.5] (animate nan initial) eq_refl)).
Defined.

End NaNFloat.
